(** * db-migration: the migration orchestrator and its external collaborators

    The repository holds three variants of one Go program:
    - [src/main.go]           ([Module MainGo]):  nine steps, plain data dump and restore;
    - [src/unnamed/part_000]  ([Module Part000]): nine steps, cleanup of tables, sequences
      and enum types, guarded data dump, data restore between BEGIN and COMMIT;
    - [src/unnamed/part_001]  ([Module Part001]): data-only migration in four steps.

    The Go code is embedded as computations of a small monad [M] over an
    arbitrary environment [Env W]: every call of the standard library that
    reaches outside the process (os, os/exec, database/sql) is answered by the
    environment and recorded, with the world it was issued in, in the trace of
    the run.  [log.Fatal] ends the run with exit status 1. *)

From stdpp Require Import gmap strings list fin_maps.
From Stdlib Require Import ZArith Ascii String.

Open Scope string_scope.
Open Scope list_scope.

Set Warnings "-register-all".

(** ** Go values *)

(** A non-nil value of Go's [error] interface.  [ErrNotExist] stands for the
    errors on which [os.IsNotExist] answers true; everything else, including
    the errors made by [fmt.Errorf], is an [ErrOther]. *)
Inductive goerr : Type :=
| ErrNotExist (msg : string)
| ErrOther (msg : string).

(** Go's [error]: [None] is [nil]. *)
Definition error : Type := option goerr.

(** The [Error()] method. *)
Definition Error (e : goerr) : string :=
  match e with
  | ErrNotExist msg => msg
  | ErrOther msg => msg
  end.

Definition os_IsNotExist (err : error) : bool :=
  match err with
  | Some (ErrNotExist _) => true
  | _ => false
  end.

(** [fmt.Errorf(format, err)] for the formats of the program, which all end
    in [%v] applied to an error. *)
Definition fmt_Errorf (prefix : string) (e : goerr) : error :=
  Some (ErrOther (prefix +:+ Error e)).

(** The permission bits [0755] of the Go source (octal). *)
Definition perm_0755 : Z := 493.

(** The standard streams a command can be attached to. *)
Inductive stream : Type := os_Stdout | os_Stderr.

(** [exec.Cmd]: the fields the program sets. *)
Record Cmd : Type := mkCmd {
  Path : string;
  Args : list string;
  Stdout : option stream;
  Stderr : option stream
}.

Definition exec_Command (name : string) (args : list string) : Cmd :=
  {| Path := name; Args := args; Stdout := None; Stderr := None |}.

Definition set_Stdout (s : stream) (c : Cmd) : Cmd :=
  {| Path := Path c; Args := Args c; Stdout := Some s; Stderr := Stderr c |}.

Definition set_Stderr (s : stream) (c : Cmd) : Cmd :=
  {| Path := Path c; Args := Args c; Stdout := Stdout c; Stderr := Some s |}.

(** The functions of the program, for the call and return marks of a trace. *)
Inductive func : Type :=
| F_testDBConnection
| F_cleanDestinationDB
| F_resetBackupDir
| F_dumpSchema
| F_restoreSchema
| F_disableConstraints
| F_dumpData
| F_restoreDataWithTransaction
| F_restoreData
| F_enableConstraints.

Definition func_eqb (f g : func) : bool :=
  match f, g with
  | F_testDBConnection, F_testDBConnection
  | F_cleanDestinationDB, F_cleanDestinationDB
  | F_resetBackupDir, F_resetBackupDir
  | F_dumpSchema, F_dumpSchema
  | F_restoreSchema, F_restoreSchema
  | F_disableConstraints, F_disableConstraints
  | F_dumpData, F_dumpData
  | F_restoreDataWithTransaction, F_restoreDataWithTransaction
  | F_restoreData, F_restoreData
  | F_enableConstraints, F_enableConstraints => true
  | _, _ => false
  end.

(** ** Events and runs *)

(** What a run does, in order: the calls that leave the process, each with the
    answer it got, the lines written by package [log], and the entry and exit
    of the program's own functions. *)
Inductive event : Type :=
| EvGetwd (dir : string) (err : error)
| EvLog (line : string)
| EvOpen (driver dsn : string) (err : error)
| EvPing (dsn : string) (err : error)
| EvClose (dsn : string) (err : error)
| EvRun (c : Cmd) (err : error)
| EvRemoveAll (path : string) (err : error)
| EvMkdirAll (path : string) (perm : Z) (err : error)
| EvStat (path : string) (err : error)
| EvCall (f : func) (args : list string)
| EvReturn (f : func) (args : list string) (failed : bool).

(** The environment: how the world answers, and changes under, each outside
    call.  [filepath_Join] is pure. *)
Record Env (W : Type) : Type := mkEnv {
  env_Getwd : W -> (string * error) * W;
  env_Open : string -> string -> W -> error * W;
  env_Ping : string -> W -> error * W;
  env_Close : string -> W -> error * W;
  env_Run : Cmd -> W -> error * W;
  env_RemoveAll : string -> W -> error * W;
  env_MkdirAll : string -> Z -> W -> error * W;
  env_Stat : string -> W -> error * W;
  filepath_Join : string -> string -> string
}.

Arguments env_Getwd {W}.
Arguments env_Open {W}.
Arguments env_Ping {W}.
Arguments env_Close {W}.
Arguments env_Run {W}.
Arguments env_RemoveAll {W}.
Arguments env_MkdirAll {W}.
Arguments env_Stat {W}.
Arguments filepath_Join {W}.

(** How a computation ends: it returns a value, or the process has exited. *)
Inductive outcome (A : Type) : Type :=
| Done (a : A)
| Exited (code : Z).

Arguments Done {A}.
Arguments Exited {A}.

(** A run: how it ended, the world it left, what it did.  Each event is kept
    with the world in which it was issued. *)
Record run (W A : Type) : Type := mkRun {
  out : outcome A;
  final : W;
  trace : list (W * event)
}.

Arguments mkRun {W A}.
Arguments out {W A}.
Arguments final {W A}.
Arguments trace {W A}.

Definition M (W A : Type) : Type := W -> run W A.

Definition ret {W A} (a : A) : M W A :=
  fun w => mkRun (Done a) w [].

Definition bind {W A B} (m : M W A) (k : A -> M W B) : M W B :=
  fun w =>
    match m w with
    | mkRun (Done a) w1 t1 =>
        match k a w1 with
        | mkRun o w2 t2 => mkRun o w2 (t1 ++ t2)
        end
    | mkRun (Exited code) w1 t1 => mkRun (Exited code) w1 t1
    end.

Notation "'let*' x ':=' m 'in' k" := (bind m (fun x => k))
  (at level 10, x pattern, m at level 100, k at level 200,
   format "'[v' 'let*'  x  ':='  m  'in' '/' k ']'").
Notation "m >> k" := (bind m (fun _ => k))
  (at level 100, k at level 200, right associativity).

Definition emit {W} (e : event) : M W unit :=
  fun w => mkRun (Done tt) w [(w, e)].

(** [os.Exit(code)]. *)
Definition os_Exit {W A} (code : Z) : M W A :=
  fun w => mkRun (Exited code) w [].

(** Package [log]: a line on standard error; the [Fatal] forms then exit
    with status 1. *)
Definition log_Print {W} (line : string) : M W unit := emit (EvLog line).

Definition log_Fatal {W A} (line : string) : M W A :=
  log_Print line >> os_Exit 1.

(** A function of the program: its entry and its return are marked in the
    trace, the return with whether it reports failure. *)
Definition fn {W A} (f : func) (args : list string) (failed : A -> bool)
    (body : M W A) : M W A :=
  emit (EvCall f args) >>
  let* a := body in
  emit (EvReturn f args (failed a)) >>
  ret a.

Definition is_err (err : error) : bool :=
  match err with Some _ => true | None => false end.

(** ** Outside calls *)

Section Calls.
Context {W : Type} (env : Env W).

Definition os_Getwd : M W (string * error) :=
  fun w =>
    let '(dir, err, w') := env_Getwd env w in
    mkRun (Done (dir, err)) w' [(w, EvGetwd dir err)].

Definition sql_Open (driver dsn : string) : M W error :=
  fun w =>
    let '(err, w') := env_Open env driver dsn w in
    mkRun (Done err) w' [(w, EvOpen driver dsn err)].

Definition db_Ping (dsn : string) : M W error :=
  fun w =>
    let '(err, w') := env_Ping env dsn w in
    mkRun (Done err) w' [(w, EvPing dsn err)].

Definition db_Close (dsn : string) : M W error :=
  fun w =>
    let '(err, w') := env_Close env dsn w in
    mkRun (Done err) w' [(w, EvClose dsn err)].

Definition cmd_Run (c : Cmd) : M W error :=
  fun w =>
    let '(err, w') := env_Run env c w in
    mkRun (Done err) w' [(w, EvRun c err)].

Definition os_RemoveAll (path : string) : M W error :=
  fun w =>
    let '(err, w') := env_RemoveAll env path w in
    mkRun (Done err) w' [(w, EvRemoveAll path err)].

Definition os_MkdirAll (path : string) (perm : Z) : M W error :=
  fun w =>
    let '(err, w') := env_MkdirAll env path perm w in
    mkRun (Done err) w' [(w, EvMkdirAll path perm err)].

Definition os_Stat (path : string) : M W error :=
  fun w =>
    let '(err, w') := env_Stat env path w in
    mkRun (Done err) w' [(w, EvStat path err)].
End Calls.

(** ** The cleanup script as text and as a PL/pgSQL block

    [cleanDestinationDB] hands psql one raw string.  The string is kept here
    line by line ([script_text]), and the block it spells is kept as syntax
    ([do_block]); [render_do] prints the syntax back, and the two are checked
    to agree character by character for each file. *)

Definition TAB : string := String (ascii_of_nat 9) EmptyString.
Definition NL : string := String (ascii_of_nat 10) EmptyString.

Fixpoint tabs (n : nat) : string :=
  match n with
  | O => EmptyString
  | S n' => TAB +:+ tabs n'
  end.

(** A raw Go string that opens with a newline, holds the given lines (each
    with its count of leading tabs) and closes after one more tab. *)
Fixpoint script_lines (ls : list (nat * string)) : string :=
  match ls with
  | [] => EmptyString
  | (n, l) :: ls' => tabs n +:+ l +:+ NL +:+ script_lines ls'
  end.

Definition script_text (ls : list (nat * string)) : string :=
  NL +:+ script_lines ls +:+ TAB.

(** A string expression of SQL: a quoted literal, a field of a record
    variable, a concatenation with [||]. *)
Inductive sqlexpr : Type :=
| SLit (s : string)
| SField (rec col : string)
| SConcat (a b : sqlexpr).

(** A condition of a WHERE clause: [col = 'lit'] or [col = 'lit'::ty]. *)
Inductive sqlcond : Type :=
| CondEq (col lit : string)
| CondEqCast (col lit ty : string).

(** [SELECT q_col FROM q_from WHERE c1 AND c2 ...]. *)
Record sqlquery : Type := mkQuery {
  q_col : string;
  q_from : string;
  q_where : list sqlcond
}.

Inductive plstmt : Type :=
| PComment (text : string)
| PBlank
| PExecute (e : sqlexpr)
| PFor (r : string) (q : sqlquery) (body : list plstmt).

(** [DO $$ DECLARE decls BEGIN body END $$;] *)
Record do_block : Type := mkDo {
  do_declare : list (string * string);
  do_body : list plstmt
}.

Definition quote : ascii := ascii_of_nat 39.

(** Inside a quoted SQL literal a quote is written twice. *)
Fixpoint sql_escape (s : string) : string :=
  match s with
  | EmptyString => EmptyString
  | String c s' =>
      if Ascii.eqb c quote then String quote (String quote (sql_escape s'))
      else String c (sql_escape s')
  end.

Fixpoint render_expr (e : sqlexpr) : string :=
  match e with
  | SLit s => String quote (sql_escape s) +:+ String quote EmptyString
  | SField rec col => rec +:+ "." +:+ col
  | SConcat a b => render_expr a +:+ " || " +:+ render_expr b
  end.

Definition render_cond (c : sqlcond) : string :=
  match c with
  | CondEq col lit => col +:+ " = '" +:+ lit +:+ "'"
  | CondEqCast col lit ty => col +:+ " = '" +:+ lit +:+ "'::" +:+ ty
  end.

Fixpoint render_conds (cs : list sqlcond) : string :=
  match cs with
  | [] => EmptyString
  | [c] => render_cond c
  | c :: cs' => render_cond c +:+ " AND " +:+ render_conds cs'
  end.

Definition render_query (q : sqlquery) : string :=
  "SELECT " +:+ q_col q +:+ " FROM " +:+ q_from q +:+ " WHERE " +:+ render_conds (q_where q).

Fixpoint render_stmt (ind : nat) (s : plstmt) : string :=
  match s with
  | PComment text => tabs ind +:+ "-- " +:+ text +:+ NL
  | PBlank => NL
  | PExecute e => tabs ind +:+ "EXECUTE " +:+ render_expr e +:+ ";" +:+ NL
  | PFor r q body =>
      tabs ind +:+ "FOR " +:+ r +:+ " IN (" +:+ render_query q +:+ ") LOOP" +:+ NL +:+
      (fix render_body (l : list plstmt) : string :=
         match l with
         | [] => EmptyString
         | s' :: l' => render_stmt (S ind) s' +:+ render_body l'
         end) body +:+
      tabs ind +:+ "END LOOP;" +:+ NL
  end.

Fixpoint render_stmts (ind : nat) (l : list plstmt) : string :=
  match l with
  | [] => EmptyString
  | s :: l' => render_stmt ind s +:+ render_stmts ind l'
  end.

Fixpoint render_decls (ind : nat) (ds : list (string * string)) : string :=
  match ds with
  | [] => EmptyString
  | (v, ty) :: ds' => tabs ind +:+ v +:+ " " +:+ ty +:+ ";" +:+ NL +:+ render_decls ind ds'
  end.

(** The block as the Go source lays it out: one tab before [DO], [BEGIN] and
    [END], two before the statements. *)
Definition render_do (b : do_block) : string :=
  NL +:+ tabs 1 +:+ "DO $$ DECLARE" +:+ NL +:+
  render_decls 2 (do_declare b) +:+
  tabs 1 +:+ "BEGIN" +:+ NL +:+
  render_stmts 2 (do_body b) +:+
  tabs 1 +:+ "END $$;" +:+ NL +:+ TAB.

(** The statements both scripts are made of. *)
Definition set_role_stmt (role : string) : plstmt :=
  PExecute (SLit ("SET session_replication_role = '" +:+ role +:+ "';")).

Definition drop_loop (kind col rel : string) (conds : list sqlcond) : plstmt :=
  PFor "r" (mkQuery col rel conds)
    [PExecute (SConcat
       (SConcat (SLit ("DROP " +:+ kind +:+ " IF EXISTS public.")) (SField "r" col))
       (SLit " CASCADE;"))].

(** ** The functions the three files share

    [testDBConnection], [resetBackupDir], [dumpSchema], [restoreSchema],
    [disableConstraints] and [enableConstraints] read the same in every file
    that has them, and so does the unguarded [dumpData] of [src/main.go] and
    [src/unnamed/part_001].  The constants of the file are arguments here. *)

Section Common.
Context {W : Type} (env : Env W).
Variables (sourceDB destinationDB jobs : string).

(** [if err != nil { ... }] *)
Definition if_err (err : error) (body : goerr -> M W unit) : M W unit :=
  match err with
  | Some e => body e
  | None => ret tt
  end.

(** Go's [!a] and the short-circuit [a || b] on calls. *)
Definition notM (a : M W bool) : M W bool :=
  let* x := a in ret (negb x).

Definition orM (a b : M W bool) : M W bool :=
  let* x := a in
  if x then ret true else b.

(** The deferred [db.Close()] runs on every return that follows a
    successful [sql.Open]. *)
Definition testDBConnection (connStr dbType : string) : M W bool :=
  fn F_testDBConnection [connStr; dbType] negb (
    log_Print ("🔄 Testing " +:+ dbType +:+ " database connection...") >>
    let* err := sql_Open env "postgres" connStr in
    match err with
    | Some e =>
        log_Print ("❌ " +:+ dbType +:+ " Database connection error: " +:+ Error e) >>
        ret false
    | None =>
        let* err := db_Ping env connStr in
        match err with
        | Some e =>
            log_Print ("❌ " +:+ dbType +:+ " Database is unreachable: " +:+ Error e) >>
            db_Close env connStr >>
            ret false
        | None =>
            log_Print ("✅ " +:+ dbType +:+ " Database connection successful!") >>
            db_Close env connStr >>
            ret true
        end
    end).

Definition resetBackupDir (dumpDir : string) : M W error :=
  fn F_resetBackupDir [dumpDir] is_err (
    log_Print "🗑️ Removing existing backup directory..." >>
    let* err := os_RemoveAll env dumpDir in
    match err with
    | Some e => ret (fmt_Errorf "failed to remove backup directory: " e)
    | None =>
        log_Print "📁 Creating a new backup directory..." >>
        os_MkdirAll env dumpDir perm_0755
    end).

Definition dumpSchema (dumpDir : string) : M W error :=
  fn F_dumpSchema [dumpDir] is_err (
    log_Print "📦 Dumping schema only..." >>
    let cmd := exec_Command "pg_dump"
      ["--format=directory"; "--no-owner"; "--no-acl"; "--schema-only";
       "--dbname=" +:+ sourceDB; "--file=" +:+ dumpDir] in
    let cmd := set_Stdout os_Stdout cmd in
    let cmd := set_Stderr os_Stderr cmd in
    cmd_Run env cmd).

Definition restoreSchema (dumpDir : string) : M W error :=
  fn F_restoreSchema [dumpDir] is_err (
    log_Print "🛠️ Restoring schema..." >>
    let restoreCmd := exec_Command "pg_restore"
      ["--clean"; "--if-exists"; "--jobs=" +:+ jobs; "--no-owner"; "--no-acl";
       "--schema-only"; "--dbname=" +:+ destinationDB; dumpDir] in
    let restoreCmd := set_Stdout os_Stdout restoreCmd in
    let restoreCmd := set_Stderr os_Stderr restoreCmd in
    cmd_Run env restoreCmd).

Definition disableConstraints : M W error :=
  fn F_disableConstraints [] is_err (
    log_Print "⏸️ Disabling foreign key constraints..." >>
    let cmd := exec_Command "psql"
      [destinationDB; "-c"; "SET session_replication_role = 'replica';"] in
    let cmd := set_Stdout os_Stdout cmd in
    let cmd := set_Stderr os_Stderr cmd in
    cmd_Run env cmd).

Definition enableConstraints : M W error :=
  fn F_enableConstraints [] is_err (
    log_Print "✅ Re-enabling foreign key constraints..." >>
    let cmd := exec_Command "psql"
      [destinationDB; "-c"; "SET session_replication_role = 'origin';"] in
    let cmd := set_Stdout os_Stdout cmd in
    let cmd := set_Stderr os_Stderr cmd in
    cmd_Run env cmd).

(** [dumpData] of [src/main.go] and [src/unnamed/part_001]. *)
Definition dumpData_unguarded (dumpDir : string) : M W error :=
  fn F_dumpData [dumpDir] is_err (
    log_Print "📦 Dumping data only..." >>
    let cmd := exec_Command "pg_dump"
      ["--format=directory"; "--no-owner"; "--no-acl"; "--data-only";
       "--jobs=" +:+ jobs; "--dbname=" +:+ sourceDB; "--file=" +:+ dumpDir] in
    let cmd := set_Stdout os_Stdout cmd in
    let cmd := set_Stderr os_Stderr cmd in
    cmd_Run env cmd).

(** [cleanDestinationDB], for the script of the file. *)
Definition cleanDestinationDB_with (cleanSQL : string) : M W error :=
  fn F_cleanDestinationDB [] is_err (
    log_Print "🗑️ Cleaning the destination database..." >>
    let cmd := exec_Command "psql" [destinationDB; "-c"; cleanSQL] in
    let cmd := set_Stdout os_Stdout cmd in
    let cmd := set_Stderr os_Stderr cmd in
    cmd_Run env cmd).

End Common.

(** ** src/main.go *)

Module MainGo.

Definition sourceDB : string := "your_source_db_connection_string".
Definition destinationDB : string := "your_destination_db_connection_string".
Definition jobs : string := "4".

Definition cleanSQL : string := script_text
  [ (1, "DO $$ DECLARE");
    (2, "r RECORD;");
    (1, "BEGIN");
    (2, "EXECUTE 'SET session_replication_role = ''replica'';';");
    (2, "FOR r IN (SELECT tablename FROM pg_tables WHERE schemaname = 'public') LOOP");
    (3, "EXECUTE 'DROP TABLE IF EXISTS public.' || r.tablename || ' CASCADE;';");
    (2, "END LOOP;");
    (2, "EXECUTE 'SET session_replication_role = ''origin'';';");
    (1, "END $$;") ]%nat.

(** The block [cleanSQL] spells. *)
Definition cleanBlock : do_block :=
  {| do_declare := [("r", "RECORD")];
     do_body :=
       [ set_role_stmt "replica";
         drop_loop "TABLE" "tablename" "pg_tables" [CondEq "schemaname" "public"];
         set_role_stmt "origin" ] |}.

Section WithEnv.
Context {W : Type} (env : Env W).

Definition testDBConnection := testDBConnection env.
Definition cleanDestinationDB : M W error :=
  cleanDestinationDB_with env destinationDB cleanSQL.
Definition resetBackupDir := resetBackupDir env.
Definition dumpSchema := dumpSchema env sourceDB.
Definition restoreSchema := restoreSchema env destinationDB jobs.
Definition disableConstraints := disableConstraints env destinationDB.
Definition dumpData := dumpData_unguarded env sourceDB jobs.
Definition enableConstraints := enableConstraints env destinationDB.

(** In this file the function keeps its name but issues no transaction. *)
Definition restoreDataWithTransaction (dumpDir : string) : M W error :=
  fn F_restoreDataWithTransaction [dumpDir] is_err (
    log_Print "🛠️ Restoring data within a transaction..." >>
    let restoreCmd := exec_Command "pg_restore"
      ["--disable-triggers"; "--jobs=" +:+ jobs; "--no-owner"; "--no-acl";
       "--data-only"; "--dbname=" +:+ destinationDB; dumpDir] in
    let restoreCmd := set_Stdout os_Stdout restoreCmd in
    let restoreCmd := set_Stderr os_Stderr restoreCmd in
    let* err := cmd_Run env restoreCmd in
    match err with
    | Some e => ret (fmt_Errorf "data restore failed: " e)
    | None => ret None
    end).

Definition main : M W unit :=
  let* (workingDir, err) := os_Getwd env in
  if_err err (fun e =>
    log_Fatal ("❌ Unable to get current working directory: " +:+ Error e)) >>
  let dumpDir := filepath_Join env workingDir "backup_dir" in
  log_Print ("Using " +:+ dumpDir +:+ " as the backup directory...") >>
  let* failed := orM (notM (testDBConnection sourceDB "Source"))
                     (notM (testDBConnection destinationDB "Destination")) in
  (if failed then log_Fatal "❌ Database connection test failed. Migration aborted."
   else ret tt) >>
  let* err := cleanDestinationDB in
  if_err err (fun e => log_Fatal ("❌ Failed to clean destination database: " +:+ Error e)) >>
  let* err := resetBackupDir dumpDir in
  if_err err (fun e => log_Fatal ("❌ Failed to reset backup directory: " +:+ Error e)) >>
  let* err := dumpSchema dumpDir in
  if_err err (fun e => log_Fatal ("❌ Schema dump failed: " +:+ Error e)) >>
  let* err := restoreSchema dumpDir in
  if_err err (fun e => log_Fatal ("❌ Schema restoration failed: " +:+ Error e)) >>
  let* err := disableConstraints in
  if_err err (fun e => log_Fatal ("❌ Error disabling constraints: " +:+ Error e)) >>
  let* err := dumpData dumpDir in
  if_err err (fun e => log_Fatal ("❌ Data dump failed: " +:+ Error e)) >>
  let* err := restoreDataWithTransaction dumpDir in
  if_err err (fun e => log_Fatal ("❌ Data restoration failed: " +:+ Error e)) >>
  let* err := enableConstraints in
  if_err err (fun e => log_Fatal ("❌ Error enabling constraints: " +:+ Error e)) >>
  log_Print "✅ Database migration completed successfully!".

End WithEnv.
End MainGo.

(** ** src/unnamed/part_000 *)

Module Part000.

Definition sourceDB : string :=
  "user=flipopay password=flipopay@123 dbname=unbadged-db host=localhost port=5433 sslmode=disable".
Definition destinationDB : string :=
  "user=zeuz password='zeuz@123' dbname=pg host=localhost port=5434 sslmode=disable".
Definition jobs : string := "4".

Definition cleanSQL : string := script_text
  [ (1, "DO $$ DECLARE");
    (2, "r RECORD;");
    (1, "BEGIN");
    (2, "-- Disable foreign key constraints");
    (2, "EXECUTE 'SET session_replication_role = ''replica'';';");
    (0, EmptyString);
    (2, "-- Drop all tables");
    (2, "FOR r IN (SELECT tablename FROM pg_tables WHERE schemaname = 'public') LOOP");
    (3, "EXECUTE 'DROP TABLE IF EXISTS public.' || r.tablename || ' CASCADE;';");
    (2, "END LOOP;");
    (0, EmptyString);
    (2, "-- Drop all sequences");
    (2, "FOR r IN (SELECT sequencename FROM pg_sequences WHERE schemaname = 'public') LOOP");
    (3, "EXECUTE 'DROP SEQUENCE IF EXISTS public.' || r.sequencename || ' CASCADE;';");
    (2, "END LOOP;");
    (0, EmptyString);
    (2, "-- Drop all enums");
    (2, "FOR r IN (SELECT typname FROM pg_type WHERE typcategory = 'E' AND typnamespace = 'public'::regnamespace) LOOP");
    (3, "EXECUTE 'DROP TYPE IF EXISTS public.' || r.typname || ' CASCADE;';");
    (2, "END LOOP;");
    (0, EmptyString);
    (2, "-- Re-enable foreign key constraints");
    (2, "EXECUTE 'SET session_replication_role = ''origin'';';");
    (1, "END $$;") ]%nat.

(** The block [cleanSQL] spells. *)
Definition cleanBlock : do_block :=
  {| do_declare := [("r", "RECORD")];
     do_body :=
       [ PComment "Disable foreign key constraints";
         set_role_stmt "replica";
         PBlank;
         PComment "Drop all tables";
         drop_loop "TABLE" "tablename" "pg_tables" [CondEq "schemaname" "public"];
         PBlank;
         PComment "Drop all sequences";
         drop_loop "SEQUENCE" "sequencename" "pg_sequences" [CondEq "schemaname" "public"];
         PBlank;
         PComment "Drop all enums";
         drop_loop "TYPE" "typname" "pg_type"
           [CondEq "typcategory" "E"; CondEqCast "typnamespace" "public" "regnamespace"];
         PBlank;
         PComment "Re-enable foreign key constraints";
         set_role_stmt "origin" ] |}.

Section WithEnv.
Context {W : Type} (env : Env W).

Definition testDBConnection := testDBConnection env.
Definition cleanDestinationDB : M W error :=
  cleanDestinationDB_with env destinationDB cleanSQL.
Definition resetBackupDir := resetBackupDir env.
Definition dumpSchema := dumpSchema env sourceDB.
Definition restoreSchema := restoreSchema env destinationDB jobs.
Definition disableConstraints := disableConstraints env destinationDB.
Definition enableConstraints := enableConstraints env destinationDB.

(** [if _, err := os.Stat(dumpDir); !os.IsNotExist(err) { ... }] *)
Definition dumpData (dumpDir : string) : M W error :=
  fn F_dumpData [dumpDir] is_err (
    log_Print "📦 Dumping data only..." >>
    let* err := os_Stat env dumpDir in
    let* removed :=
      (if negb (os_IsNotExist err) then
         log_Print "🗑️ Removing backup directory before dumping data..." >>
         os_RemoveAll env dumpDir
       else ret None) in
    match removed with
    | Some e => ret (fmt_Errorf "failed to remove backup directory before data dump: " e)
    | None =>
        let cmd := exec_Command "pg_dump"
          ["--format=directory"; "--no-owner"; "--no-acl"; "--data-only";
           "--jobs=" +:+ jobs; "--dbname=" +:+ sourceDB; "--file=" +:+ dumpDir] in
        let cmd := set_Stdout os_Stdout cmd in
        let cmd := set_Stderr os_Stderr cmd in
        cmd_Run env cmd
    end).

Definition restoreDataWithTransaction (dumpDir : string) : M W error :=
  fn F_restoreDataWithTransaction [dumpDir] is_err (
    log_Print "🛠️ Restoring data within a transaction..." >>
    let startTx := exec_Command "psql" [destinationDB; "-c"; "BEGIN;"] in
    let startTx := set_Stdout os_Stdout startTx in
    let startTx := set_Stderr os_Stderr startTx in
    let* err := cmd_Run env startTx in
    match err with
    | Some e => ret (fmt_Errorf "failed to start transaction: " e)
    | None =>
        let restoreCmd := exec_Command "pg_restore"
          ["--disable-triggers"; "--jobs=" +:+ jobs; "--no-owner"; "--no-acl";
           "--data-only"; "--dbname=" +:+ destinationDB; dumpDir] in
        let restoreCmd := set_Stdout os_Stdout restoreCmd in
        let restoreCmd := set_Stderr os_Stderr restoreCmd in
        let* err := cmd_Run env restoreCmd in
        match err with
        | Some e =>
            cmd_Run env (exec_Command "psql" [destinationDB; "-c"; "ROLLBACK;"]) >>
            ret (fmt_Errorf "data restore failed: " e)
        | None =>
            let commitTx := exec_Command "psql" [destinationDB; "-c"; "COMMIT;"] in
            let commitTx := set_Stdout os_Stdout commitTx in
            let commitTx := set_Stderr os_Stderr commitTx in
            cmd_Run env commitTx
        end
    end).

Definition main : M W unit :=
  let* (workingDir, err) := os_Getwd env in
  if_err err (fun e =>
    log_Fatal ("❌ Unable to get current working directory: " +:+ Error e)) >>
  let dumpDir := filepath_Join env workingDir "backup_dir" in
  log_Print ("Using " +:+ dumpDir +:+ " as the backup directory...") >>
  let* failed := orM (notM (testDBConnection sourceDB "Source"))
                     (notM (testDBConnection destinationDB "Destination")) in
  (if failed then log_Fatal "❌ Database connection test failed. Migration aborted."
   else ret tt) >>
  let* err := cleanDestinationDB in
  if_err err (fun e => log_Fatal ("❌ Failed to clean destination database: " +:+ Error e)) >>
  let* err := resetBackupDir dumpDir in
  if_err err (fun e => log_Fatal ("❌ Failed to reset backup directory: " +:+ Error e)) >>
  let* err := dumpSchema dumpDir in
  if_err err (fun e => log_Fatal ("❌ Schema dump failed: " +:+ Error e)) >>
  let* err := restoreSchema dumpDir in
  if_err err (fun e => log_Fatal ("❌ Schema restoration failed: " +:+ Error e)) >>
  let* err := disableConstraints in
  if_err err (fun e => log_Fatal ("❌ Error disabling constraints: " +:+ Error e)) >>
  let* err := dumpData dumpDir in
  if_err err (fun e => log_Fatal ("❌ Data dump failed: " +:+ Error e)) >>
  let* err := restoreDataWithTransaction dumpDir in
  if_err err (fun e => log_Fatal ("❌ Data restoration failed: " +:+ Error e)) >>
  let* err := enableConstraints in
  if_err err (fun e => log_Fatal ("❌ Error enabling constraints: " +:+ Error e)) >>
  log_Print "✅ Database migration completed successfully!".

End WithEnv.
End Part000.

(** ** src/unnamed/part_001 *)

Module Part001.

Definition sourceDB : string := "your_source_db_connection_string".
Definition destinationDB : string := "your_destination_db_connection_string".
Definition jobs : string := "4".

Section WithEnv.
Context {W : Type} (env : Env W).

Definition testDBConnection := testDBConnection env.
Definition resetBackupDir := resetBackupDir env.
Definition dumpData := dumpData_unguarded env sourceDB jobs.

Definition restoreData (dumpDir : string) : M W error :=
  fn F_restoreData [dumpDir] is_err (
    log_Print "🛠️ Restoring data..." >>
    let restoreCmd := exec_Command "pg_restore"
      ["--jobs=" +:+ jobs; "--no-owner"; "--no-acl"; "--data-only";
       "--dbname=" +:+ destinationDB; dumpDir] in
    let restoreCmd := set_Stdout os_Stdout restoreCmd in
    let restoreCmd := set_Stderr os_Stderr restoreCmd in
    cmd_Run env restoreCmd).

Definition main : M W unit :=
  let* (workingDir, err) := os_Getwd env in
  if_err err (fun e =>
    log_Fatal ("❌ Unable to get current working directory: " +:+ Error e)) >>
  let dumpDir := filepath_Join env workingDir "backup_dir" in
  log_Print ("Using " +:+ dumpDir +:+ " as the backup directory...") >>
  let* failed := orM (notM (testDBConnection sourceDB "Source"))
                     (notM (testDBConnection destinationDB "Destination")) in
  (if failed then log_Fatal "❌ Database connection test failed. Migration aborted."
   else ret tt) >>
  let* err := resetBackupDir dumpDir in
  if_err err (fun e => log_Fatal ("❌ Failed to reset backup directory: " +:+ Error e)) >>
  let* err := dumpData dumpDir in
  if_err err (fun e => log_Fatal ("❌ Data dump failed: " +:+ Error e)) >>
  let* err := restoreData dumpDir in
  if_err err (fun e => log_Fatal ("❌ Data restoration failed: " +:+ Error e)) >>
  log_Print "✅ Database data migration completed successfully!".

End WithEnv.
End Part001.


(** ** Reading a trace *)

Definition events {W A} (r : run W A) : list event := map snd (trace r).

(** The calls of the program's functions, in order. *)
Fixpoint calls (evs : list event) : list (func * list string) :=
  match evs with
  | [] => []
  | EvCall f args :: evs' => (f, args) :: calls evs'
  | _ :: evs' => calls evs'
  end.

(** The commands run, each with its result, in order. *)
Fixpoint runs (evs : list event) : list (Cmd * error) :=
  match evs with
  | [] => []
  | EvRun c err :: evs' => (c, err) :: runs evs'
  | _ :: evs' => runs evs'
  end.

Definition is_call (ev : event) : bool :=
  match ev with EvCall _ _ => true | _ => false end.

(** The event reaches the endpoint [dsn]: a connection is opened to it,
    pinged or closed, or [testDBConnection] is entered for it. *)
Definition probes (dsn : string) (ev : event) : bool :=
  match ev with
  | EvOpen _ d _ => String.eqb d dsn
  | EvPing d _ => String.eqb d dsn
  | EvClose d _ => String.eqb d dsn
  | EvCall F_testDBConnection (d :: _) => String.eqb d dsn
  | _ => false
  end.

(** [testDBConnection] returns for the endpoint [dsn], reporting failure or
    not. *)
Definition check_returns (dsn : string) (failed : bool) (ev : event) : bool :=
  match ev with
  | EvReturn F_testDBConnection (d :: _) b => String.eqb d dsn && Bool.eqb b failed
  | _ => false
  end.

(** The event changes something outside the process: a command is run, a
    directory is removed or made. *)
Definition acts (ev : event) : bool :=
  match ev with
  | EvRun _ _ | EvRemoveAll _ _ | EvMkdirAll _ _ _ => true
  | _ => false
  end.

(** Every event that satisfies [p] comes after one that satisfies [q]
    ([seen]: one has been met already). *)
Fixpoint precededb (p q : event -> bool) (seen : bool) (evs : list event) : bool :=
  match evs with
  | [] => true
  | ev :: evs' => (negb (p ev) || seen) && precededb p q (seen || q ev) evs'
  end.

(** The endpoint [src] is checked first: whatever reaches [dst] comes after a
    successful return of the check of [src], and nothing reaches [dst] in a
    run where the check of [src] reports failure. *)
Definition source_checked_first (src dst : string) (evs : list event) : Prop :=
  (forall pre ev post, evs = pre ++ ev :: post -> probes dst ev = true ->
     exists ev', ev' ∈ pre /\ check_returns src false ev' = true) /\
  ((exists ev, ev ∈ evs /\ check_returns src true ev = true) ->
     forall ev, ev ∈ evs -> probes dst ev = false).

Definition source_checked_firstb (src dst : string) (evs : list event) : bool :=
  precededb (probes dst) (check_returns src false) false evs &&
  (negb (existsb (check_returns src true) evs) ||
   forallb (fun ev => negb (probes dst ev)) evs).

(** ** The nine steps *)

Inductive step : Type :=
| ConnectivityCheck
| DestinationCleanup
| BackupDirReset
| SchemaDump
| SchemaRestore
| DisableConstraints
| DataDump
| DataRestore
| EnableConstraints.

Definition nine_steps : list step :=
  [ConnectivityCheck; DestinationCleanup; BackupDirReset; SchemaDump;
   SchemaRestore; DisableConstraints; DataDump; DataRestore; EnableConstraints].

(** The step a function of the program carries out. *)
Definition step_of (f : func) : step :=
  match f with
  | F_testDBConnection => ConnectivityCheck
  | F_cleanDestinationDB => DestinationCleanup
  | F_resetBackupDir => BackupDirReset
  | F_dumpSchema => SchemaDump
  | F_restoreSchema => SchemaRestore
  | F_disableConstraints => DisableConstraints
  | F_dumpData => DataDump
  | F_restoreDataWithTransaction => DataRestore
  | F_restoreData => DataRestore
  | F_enableConstraints => EnableConstraints
  end.

Definition step_eqb (a b : step) : bool :=
  match a, b with
  | ConnectivityCheck, ConnectivityCheck
  | DestinationCleanup, DestinationCleanup
  | BackupDirReset, BackupDirReset
  | SchemaDump, SchemaDump
  | SchemaRestore, SchemaRestore
  | DisableConstraints, DisableConstraints
  | DataDump, DataDump
  | DataRestore, DataRestore
  | EnableConstraints, EnableConstraints => true
  | _, _ => false
  end.

(** The line [main] hands to [log.Fatal] or [log.Fatalf] when the step
    fails, up to the [%v] of the error. *)
Definition diagnostic (s : step) : string :=
  match s with
  | ConnectivityCheck => "❌ Database connection test failed. Migration aborted."
  | DestinationCleanup => "❌ Failed to clean destination database: "
  | BackupDirReset => "❌ Failed to reset backup directory: "
  | SchemaDump => "❌ Schema dump failed: "
  | SchemaRestore => "❌ Schema restoration failed: "
  | DisableConstraints => "❌ Error disabling constraints: "
  | DataDump => "❌ Data dump failed: "
  | DataRestore => "❌ Data restoration failed: "
  | EnableConstraints => "❌ Error enabling constraints: "
  end.

(** Neighbouring repetitions count once: the connectivity check is two calls
    of [testDBConnection]. *)
Fixpoint collapse (l : list step) : list step :=
  match l with
  | [] => []
  | a :: l' =>
      match l' with
      | b :: _ => if step_eqb a b then collapse l' else a :: collapse l'
      | [] => [a]
      end
  end.

(** The steps a run enters, in order. *)
Definition steps_run (evs : list event) : list step :=
  collapse (map (fun c => step_of (fst c)) (calls evs)).

Fixpoint steps_prefixb (l1 l2 : list step) : bool :=
  match l1, l2 with
  | [], _ => true
  | a :: l1', b :: l2' => step_eqb a b && steps_prefixb l1' l2'
  | _ :: _, [] => false
  end.

Fixpoint steps_eqb (l1 l2 : list step) : bool :=
  match l1, l2 with
  | [], [] => true
  | a :: l1', b :: l2' => step_eqb a b && steps_eqb l1' l2'
  | _, _ => false
  end.

Definition failed_return (ev : event) : bool :=
  match ev with EvReturn _ _ true => true | _ => false end.

Definition returns_failure (f : func) (ev : event) : bool :=
  match ev with EvReturn g _ true => func_eqb f g | _ => false end.

(** The command runs a dump or restore tool in data-only mode.  Every
    argument of pg_dump is an option; the last argument of pg_restore is the
    archive to read, the ones before it are options. *)
Definition data_only (c : Cmd) : bool :=
  if String.eqb (Path c) "pg_dump" then
    existsb (String.eqb "--data-only") (Args c)
  else if String.eqb (Path c) "pg_restore" then
    existsb (String.eqb "--data-only") (removelast (Args c))
  else false.

(** The event belongs to the data dump or to the data restore: one of the
    two functions is entered, or a tool is run in data-only mode. *)
Definition data_step (ev : event) : bool :=
  match ev with
  | EvCall F_dumpData _ => true
  | EvCall F_restoreDataWithTransaction _ => true
  | EvCall F_restoreData _ => true
  | EvRun c _ => data_only c
  | _ => false
  end.

Definition is_exit1 {A} (o : outcome A) : bool :=
  match o with Exited code => Z.eqb code 1 | Done _ => false end.

Definition is_done {A} (o : outcome A) : bool :=
  match o with Done _ => true | Exited _ => false end.

(** [s] opens with [p]. *)
Fixpoint starts_with (p s : string) : bool :=
  match p with
  | EmptyString => true
  | String a p' =>
      match s with
      | EmptyString => false
      | String b s' => Ascii.eqb a b && starts_with p' s'
      end
  end.

(** After a return that reports failure the trace holds one more event, the
    fatal line, and the line opens with the diagnostic of the step. *)
Fixpoint fail_fastb (evs : list event) : bool :=
  match evs with
  | [] => true
  | EvReturn f _ true :: post =>
      match post with
      | [EvLog line] => starts_with (diagnostic (step_of f)) line
      | _ => false
      end
  | _ :: evs' => fail_fastb evs'
  end.

(** An outside call answered with an error the program does not pass over:
    the working directory, a connection, a command, the removal or the
    making of a directory.  ([Close] and [os.Stat] are passed over.) *)
Definition env_failure (ev : event) : bool :=
  match ev with
  | EvGetwd _ (Some _) | EvOpen _ _ (Some _) | EvPing _ (Some _) | EvRun _ (Some _)
  | EvRemoveAll _ (Some _) | EvMkdirAll _ _ (Some _) => true
  | _ => false
  end.

(** The run ended before any step: [os.Getwd] failed, the fatal line
    followed, and that is all the run did. *)
Definition getwd_failed (evs : list event) : Prop :=
  exists dir e line, evs = [EvGetwd dir (Some e); EvLog line].

Definition getwd_failedb (evs : list event) : bool :=
  match evs with
  | [EvGetwd _ (Some _); EvLog _] => true
  | _ => false
  end.

(** The run goes on until something fails: the process exits only when
    [os.Getwd] failed or a step returned failure, and when no outside call
    was answered with an error [main] returns. *)
Definition stops_for_cause {W} (r : run W unit) : Prop :=
  let evs := events r in
  (forall code, out r = Exited code ->
     getwd_failed evs \/
     exists pre f args post, evs = pre ++ EvReturn f args true :: post) /\
  (existsb env_failure evs = false -> out r = Done tt).

Definition stops_for_causeb {W} (r : run W unit) : bool :=
  let evs := events r in
  (is_done (out r) || getwd_failedb evs || existsb failed_return evs) &&
  (existsb env_failure evs || is_done (out r)).

(** What C1 says of a run of a nine-step [main]. *)
Definition fail_fast_run {W} (r : run W unit) : Prop :=
  let evs := events r in
  (exists rest, nine_steps = steps_run evs ++ rest) /\
  (forall pre f args post, evs = pre ++ EvReturn f args true :: post ->
     out r = Exited 1 /\
     exists line, post = [EvLog line] /\
       starts_with (diagnostic (step_of f)) line = true) /\
  (out r = Done tt <-> steps_run evs = nine_steps /\ existsb failed_return evs = false) /\
  (forall code, out r = Exited code -> code = 1%Z) /\
  ((exists ev, ev ∈ evs /\ returns_failure F_restoreSchema ev = true) ->
     forall ev, ev ∈ evs -> data_step ev = false) /\
  stops_for_cause r.

Definition fail_fast_runb {W} (r : run W unit) : bool :=
  let evs := events r in
  steps_prefixb (steps_run evs) nine_steps &&
  fail_fastb evs &&
  (negb (existsb failed_return evs) || is_exit1 (out r)) &&
  Bool.eqb (is_done (out r))
    (steps_eqb (steps_run evs) nine_steps && negb (existsb failed_return evs)) &&
  (is_done (out r) || is_exit1 (out r)) &&
  (negb (existsb (returns_failure F_restoreSchema) evs) ||
   forallb (fun ev => negb (data_step ev)) evs) &&
  stops_for_causeb r.

(** What C4 says of a run in which the check of the destination fails. *)
Definition aborts_untouched {W} (dst : string) (r : run W unit) : Prop :=
  (exists ev, ev ∈ events r /\ check_returns dst true ev = true) ->
  out r = Exited 1 /\ forall ev, ev ∈ events r -> acts ev = false.

Definition aborts_untouchedb {W} (dst : string) (r : run W unit) : bool :=
  negb (existsb (check_returns dst true) (events r)) ||
  (is_exit1 (out r) && forallb (fun ev => negb (acts ev)) (events r)).

(** The endpoint can be reached from the world [w]: [sql.Open] gives no
    error, and then neither does [Ping]. *)
Definition opens_and_pings {W} (env : Env W) (connStr : string) (w : W) : Prop :=
  exists w1 w2,
    env_Open env "postgres" connStr w = (None, w1) /\
    env_Ping env connStr w1 = (None, w2).

(** The four commands of [restoreDataWithTransaction] in
    [src/unnamed/part_000]. *)
Definition startTx : Cmd :=
  set_Stderr os_Stderr (set_Stdout os_Stdout
    (exec_Command "psql" [Part000.destinationDB; "-c"; "BEGIN;"])).

Definition restoreCmd (dumpDir : string) : Cmd :=
  set_Stderr os_Stderr (set_Stdout os_Stdout
    (exec_Command "pg_restore"
       ["--disable-triggers"; "--jobs=" +:+ Part000.jobs; "--no-owner"; "--no-acl";
        "--data-only"; "--dbname=" +:+ Part000.destinationDB; dumpDir])).

Definition commitTx : Cmd :=
  set_Stderr os_Stderr (set_Stdout os_Stdout
    (exec_Command "psql" [Part000.destinationDB; "-c"; "COMMIT;"])).

Definition rollbackTx : Cmd :=
  exec_Command "psql" [Part000.destinationDB; "-c"; "ROLLBACK;"].

(** The calls that leave the process, without the log lines and the marks. *)
Fixpoint outside_calls (evs : list event) : list event :=
  match evs with
  | [] => []
  | EvLog _ :: evs' => outside_calls evs'
  | EvCall _ _ :: evs' => outside_calls evs'
  | EvReturn _ _ _ :: evs' => outside_calls evs'
  | ev :: evs' => ev :: outside_calls evs'
  end.

(** The data dump command of [src/unnamed/part_000]. *)
Definition dataDumpCmd (dumpDir : string) : Cmd :=
  set_Stderr os_Stderr (set_Stdout os_Stdout
    (exec_Command "pg_dump"
       ["--format=directory"; "--no-owner"; "--no-acl"; "--data-only";
        "--jobs=" +:+ Part000.jobs; "--dbname=" +:+ Part000.sourceDB;
        "--file=" +:+ dumpDir])).

(** The outside calls of the guarded [dumpData] of [src/unnamed/part_000]:
    the path is examined; unless the answer is the not-exist error, the path
    is removed; the dump tool is run, in data-only mode with the configured
    jobs, only after the path was reported missing or its removal
    succeeded. *)
Definition guarded_dump {W} (p : string) (r : run W error) : Prop :=
  match outside_calls (events r) with
  | [EvStat p0 e0; EvRun c e] =>
      p0 = p /\ os_IsNotExist e0 = true /\ c = dataDumpCmd p /\ out r = Done e
  | [EvStat p0 e0; EvRemoveAll p1 None; EvRun c e] =>
      p0 = p /\ p1 = p /\ os_IsNotExist e0 = false /\ c = dataDumpCmd p /\ out r = Done e
  | [EvStat p0 e0; EvRemoveAll p1 (Some e1)] =>
      p0 = p /\ p1 = p /\ os_IsNotExist e0 = false /\
      out r = Done (fmt_Errorf "failed to remove backup directory before data dump: " e1)
  | _ => False
  end.

(** ** A scripted environment

    For examples: the world is the list of results the commands still to be
    run will give (none left: success); every other call succeeds and the
    working directory is [/work]. *)
Definition scripted : Env (list error) :=
  {| env_Getwd := fun w => ("/work", None, w);
     env_Open := fun _ _ w => (None, w);
     env_Ping := fun _ w => (None, w);
     env_Close := fun _ w => (None, w);
     env_Run := fun _ w =>
       match w with
       | err :: w' => (err, w')
       | [] => (None, [])
       end;
     env_RemoveAll := fun _ w => (None, w);
     env_MkdirAll := fun _ _ w => (None, w);
     env_Stat := fun _ w => (None, w);
     filepath_Join := fun a b => a +:+ "/" +:+ b |}.

(** * A model of the outside world

    The claims about the backup directory and about the destination database
    speak of states no Go code holds: the file system and the catalog of a
    PostgreSQL server.  This part models them as far as the program reaches
    them: [os.Stat], [os.RemoveAll] and [os.MkdirAll] on paths, psql running
    the statements the program sends.  The dump and restore tools stay
    arbitrary. *)

(** ** Strings *)

(** [strip_prefix p s]: what follows [p] in [s]. *)
Fixpoint strip_prefix (p s : string) : option string :=
  match p with
  | EmptyString => Some s
  | String a p' =>
      match s with
      | EmptyString => None
      | String b s' => if Ascii.eqb a b then strip_prefix p' s' else None
      end
  end.

(** [strip_suffix suf s]: what precedes [suf] at the end of [s]. *)
Fixpoint strip_suffix (suf s : string) : option string :=
  if String.eqb s suf then Some EmptyString
  else
    match s with
    | EmptyString => None
    | String c s' =>
        match strip_suffix suf s' with
        | Some body => Some (String c body)
        | None => None
        end
    end.

(** Lower-case letters and digits of ASCII. *)
Definition is_lower (c : ascii) : bool :=
  let n := nat_of_ascii c in (97 <=? n)%nat && (n <=? 122)%nat.

Definition is_digit (c : ascii) : bool :=
  let n := nat_of_ascii c in (48 <=? n)%nat && (n <=? 57)%nat.

Fixpoint ident_tail (s : string) : bool :=
  match s with
  | EmptyString => true
  | String c s' =>
      (is_lower c || is_digit c || Ascii.eqb c "_"%char || Ascii.eqb c "$"%char) &&
      ident_tail s'
  end.

(** An identifier that SQL reads as it is written, without quotes: a
    lower-case letter or an underscore, then lower-case letters, digits,
    underscores and dollar signs, 63 bytes at most.  Any other name is
    changed by the reading (upper case is folded, a longer name is cut) or
    is not an identifier at all. *)
Definition plain_ident (s : string) : bool :=
  match s with
  | EmptyString => false
  | String c s' =>
      (is_lower c || Ascii.eqb c "_"%char) && ident_tail s' &&
      (String.length s <=? 63)%nat
  end.

(** ** The file system *)

Inductive node : Type := File | Dir.

Inductive fsop : Type := OpStat | OpRemove | OpMkdir.

Definition fsop_eqb (a b : fsop) : bool :=
  match a, b with
  | OpStat, OpStat | OpRemove, OpRemove | OpMkdir, OpMkdir => true
  | _, _ => false
  end.

(** [q] lies below the directory [p]. *)
Definition under (p q : string) : bool := starts_with (p +:+ "/") q.

(** [q] is neither [p] nor below it. *)
Definition outside (p q : string) : bool := negb (String.eqb q p || under p q).

(** The directories above [s]: its prefixes that end before a separator,
    the empty one left out ([acc] is what has been read). *)
Fixpoint ancestors_from (acc s : string) : list string :=
  match s with
  | EmptyString => []
  | String c s' =>
      (if Ascii.eqb c "/"%char && negb (String.eqb acc EmptyString) then [acc] else [])
      ++ ancestors_from (acc +:+ String c EmptyString) s'
  end.

Definition ancestors (p : string) : list string := ancestors_from EmptyString p.

(** ** The database server *)

Inductive objkind : Type := Table | Sequence | EnumType.

Definition objkind_eqb (a b : objkind) : bool :=
  match a, b with
  | Table, Table | Sequence, Sequence | EnumType, EnumType => true
  | _, _ => false
  end.

(** A catalog object, known by its kind, its schema and its name. *)
Record pgobj : Type := mkObj {
  okind : objkind;
  oschema : string;
  oname : string
}.

Definition pgobj_eqb (a b : pgobj) : bool :=
  objkind_eqb (okind a) (okind b) &&
  String.eqb (oschema a) (oschema b) &&
  String.eqb (oname a) (oname b).

(** [session_replication_role]. *)
Inductive reprole : Type := Origin | Replica | Local.

(** A database: the objects of its catalog; which object depends on which
    ([(x, y)]: [x] depends on [y], as a view on its table, a child table on
    its parent, a sequence on the column that owns it); the objects the
    connecting role may not drop (it does not own them, or they are locked):
    dropping one of these raises an error; and what the server does with a
    statement this model does not read ([elsewhere]: an error, or the
    database and the role it leaves).  The model reads the statements of the
    program with names that need no quotes; of any other text it says
    nothing, and a theorem about all databases holds whatever the server
    does with such a text. *)
Inductive database : Type := mkDb {
  objects : list pgobj;
  depends : list (pgobj * pgobj);
  held : list pgobj;
  elsewhere : string -> option (database * reprole)
}.

(** A session: the database as the session sees it, the setting of
    [session_replication_role], and the statements executed so far. *)
Record session : Type := mkSession {
  sdb : database;
  role : reprole;
  executed : list string
}.

(** A fresh session starts with the default role, [origin]. *)
Definition connect (db : database) : session :=
  {| sdb := db; role := Origin; executed := [] |}.

Definition has_obj (o : pgobj) (l : list pgobj) : bool := existsb (pgobj_eqb o) l.

(** The objects that depend on one of [set]. *)
Definition dependents_of (dep : list (pgobj * pgobj)) (set : list pgobj) : list pgobj :=
  map fst (List.filter (fun d => has_obj (snd d) set) dep).

(** [set] with all that depends on it, directly or not: each round adds the
    dependents of what is there, and there are as many rounds as
    dependencies. *)
Fixpoint cascade (rounds : nat) (dep : list (pgobj * pgobj)) (set : list pgobj) : list pgobj :=
  match rounds with
  | O => set
  | S n => cascade n dep (set ++ dependents_of dep set)
  end.

Definition remove_objs (gone : list pgobj) (l : list pgobj) : list pgobj :=
  List.filter (fun x => negb (has_obj x gone)) l.

(** Dropping an object with CASCADE: no error when the object is missing;
    an error when it is held; otherwise it leaves the catalog, and with it
    every object that depends on it. *)
Definition drop_object (k : objkind) (schema name : string) (s : session) : option session :=
  let o := mkObj k schema name in
  let db := sdb s in
  if has_obj o (objects db) then
    if has_obj o (held db) then None
    else
      let gone := cascade (List.length (depends db)) (depends db) [o] in
      Some {| sdb := {| objects := remove_objs gone (objects db);
                        depends := depends db;
                        held := held db;
                        elsewhere := elsewhere db |};
              role := role s; executed := executed s |}
  else Some s.

Definition set_role (r : reprole) (s : session) : session :=
  {| sdb := sdb s; role := r; executed := executed s |}.

(** A statement the model does not read: the server's answer is the
    database's own. *)
Definition unread (sql : string) (s : session) : option session :=
  match elsewhere (sdb s) sql with
  | Some (db', r') => Some {| sdb := db'; role := r'; executed := executed s |}
  | None => None
  end.

(** [DROP kw IF EXISTS public.name CASCADE;] read back from its text, when
    [name] is an identifier that is read as written.  Such a name holds no
    dot, comma, space, quote or semicolon, so that the text is one
    statement and names one object, [name] of the schema [public].  The
    text the program builds from any other name is not read here. *)
Definition parse_drop (kw sql : string) : option string :=
  match strip_prefix ("DROP " +:+ kw +:+ " IF EXISTS public.") sql with
  | Some rest =>
      match strip_suffix " CASCADE;" rest with
      | Some name => if plain_ident name then Some name else None
      | None => None
      end
  | None => None
  end.

(** What [DROP ... IF EXISTS] does when no object of the kind has the name. *)
Inductive missing : Type := Skipped | WrongKind | NotRead.

(** Tables and sequences are relations and share their names: DROP TABLE of
    a name that a sequence has, or DROP SEQUENCE of a name that a table has,
    is an error.  A table has a row type of its own name, which DROP TYPE
    may not drop: an error too.  Whether a sequence has one depends on the
    version of the server: that case is not read.  Otherwise the statement
    is skipped with a notice. *)
Definition when_missing (k : objkind) (name : string) (objs : list pgobj) : missing :=
  let tbl := has_obj (mkObj Table "public" name) objs in
  let seq := has_obj (mkObj Sequence "public" name) objs in
  match k with
  | Table => if seq then WrongKind else Skipped
  | Sequence => if tbl then WrongKind else Skipped
  | EnumType => if tbl then WrongKind else if seq then NotRead else Skipped
  end.

(** [DROP kw IF EXISTS public.name CASCADE;] for a name read as written;
    [sql] is the text of the statement. *)
Definition drop_public (k : objkind) (sql name : string) (s : session) : option session :=
  if has_obj (mkObj k "public" name) (objects (sdb s)) then drop_object k "public" name s
  else
    match when_missing k name (objects (sdb s)) with
    | Skipped => Some s
    | WrongKind => None
    | NotRead => unread sql s
    end.

(** One SQL statement, as the server takes it.  The model reads the two
    SETs, the three transaction statements and the drops with a name that
    is read as written; any other text is [unread]. *)
Definition run_statement (sql : string) (s : session) : option session :=
  if String.eqb sql "SET session_replication_role = 'replica';" then Some (set_role Replica s)
  else if String.eqb sql "SET session_replication_role = 'origin';" then Some (set_role Origin s)
  else if String.eqb sql "BEGIN;" then Some s
  else if String.eqb sql "COMMIT;" then Some s
  else if String.eqb sql "ROLLBACK;" then Some s
  else
    match parse_drop "TABLE" sql with
    | Some name => drop_public Table sql name s
    | None =>
        match parse_drop "SEQUENCE" sql with
        | Some name => drop_public Sequence sql name s
        | None =>
            match parse_drop "TYPE" sql with
            | Some name => drop_public EnumType sql name s
            | None => unread sql s
            end
        end
    end.

(** Executing a statement records it. *)
Definition exec_sql (sql : string) (s : session) : option session :=
  match run_statement sql s with
  | Some s' => Some {| sdb := sdb s'; role := role s'; executed := executed s' ++ [sql] |}
  | None => None
  end.

(** *** The catalog views the scripts read *)

Definition row : Type := list (string * string).

Fixpoint field (col : string) (r : row) : option string :=
  match r with
  | [] => None
  | (c, v) :: r' => if String.eqb c col then Some v else field col r'
  end.

(** The rows of a catalog view.  A table has a row in [pg_type] too, for its
    composite type, of category C; an enum type has category E. *)
Definition view_row (rel : string) (o : pgobj) : option row :=
  if String.eqb rel "pg_tables" then
    match okind o with
    | Table => Some [("schemaname", oschema o); ("tablename", oname o)]
    | _ => None
    end
  else if String.eqb rel "pg_sequences" then
    match okind o with
    | Sequence => Some [("schemaname", oschema o); ("sequencename", oname o)]
    | _ => None
    end
  else if String.eqb rel "pg_type" then
    match okind o with
    | EnumType => Some [("typname", oname o); ("typcategory", "E"); ("typnamespace", oschema o)]
    | Table => Some [("typname", oname o); ("typcategory", "C"); ("typnamespace", oschema o)]
    | Sequence => None
    end
  else None.

(** [col = 'lit'], and [col = 'lit'::regnamespace], which names the schema. *)
Definition cond_holds (r : row) (c : sqlcond) : bool :=
  match c with
  | CondEq col lit | CondEqCast col lit _ =>
      match field col r with
      | Some v => String.eqb v lit
      | None => false
      end
  end.

(** The value a query selects from an object's row, when the row passes. *)
Definition select_from (q : sqlquery) (o : pgobj) : option string :=
  match view_row (q_from q) o with
  | Some r => if forallb (cond_holds r) (q_where q) then field (q_col q) r else None
  | None => None
  end.

Fixpoint eval_query (q : sqlquery) (objs : list pgobj) : list string :=
  match objs with
  | [] => []
  | o :: objs' =>
      match select_from q o with
      | Some v => v :: eval_query q objs'
      | None => eval_query q objs'
      end
  end.

(** *** Running a block *)

Definition bindings : Type := list (string * row).

Fixpoint lookup_rec (r : string) (b : bindings) : option row :=
  match b with
  | [] => None
  | (x, v) :: b' => if String.eqb x r then Some v else lookup_rec r b'
  end.

Fixpoint eval_expr (b : bindings) (e : sqlexpr) : option string :=
  match e with
  | SLit s => Some s
  | SField r col =>
      match lookup_rec r b with
      | Some v => field col v
      | None => None
      end
  | SConcat e1 e2 =>
      match eval_expr b e1, eval_expr b e2 with
      | Some x, Some y => Some (x +:+ y)
      | _, _ => None
      end
  end.

(** The body of a loop, once for each row, until one fails. *)
Fixpoint for_rows (body : string -> session -> option session) (rows : list string)
    (s : session) : option session :=
  match rows with
  | [] => Some s
  | v :: rows' =>
      match body v s with
      | Some s' => for_rows body rows' s'
      | None => None
      end
  end.

(** A loop reads its rows when it starts. *)
Fixpoint exec_stmt (b : bindings) (st : plstmt) (s : session) : option session :=
  match st with
  | PComment _ => Some s
  | PBlank => Some s
  | PExecute e =>
      match eval_expr b e with
      | Some sql => exec_sql sql s
      | None => None
      end
  | PFor r q body =>
      for_rows
        (fun v =>
           (fix exec_body (l : list plstmt) (s : session) : option session :=
              match l with
              | [] => Some s
              | st' :: l' =>
                  match exec_stmt ((r, [(q_col q, v)]) :: b) st' s with
                  | Some s' => exec_body l' s'
                  | None => None
                  end
              end) body)
        (eval_query q (objects (sdb s))) s
  end.

Fixpoint exec_stmts (b : bindings) (l : list plstmt) (s : session) : option session :=
  match l with
  | [] => Some s
  | st :: l' =>
      match exec_stmt b st s with
      | Some s' => exec_stmts b l' s'
      | None => None
      end
  end.

Definition exec_do (blk : do_block) (s : session) : option session :=
  exec_stmts [] (do_body blk) s.

(** The blocks psql can be sent by this repository. *)
Definition known_blocks : list do_block := [MainGo.cleanBlock; Part000.cleanBlock].

Definition parse_do (text : string) : option do_block :=
  List.find (fun blk => String.eqb (render_do blk) text) known_blocks.

(** What a session does with the text of [psql -c]. *)
Definition run_text (text : string) (s : session) : option session :=
  match parse_do text with
  | Some blk => exec_do blk s
  | None => exec_sql text s
  end.

(** [psql dsn -c text] against a database: a new session runs the text as one
    transaction; on an error the transaction is rolled back, the database is
    as before and psql reports failure.  The session ends either way. *)
Definition psql_c (text : string) (db : database) : error * database :=
  match run_text text (connect db) with
  | Some s => (None, sdb s)
  | None => (Some (ErrOther "exit status 1"), db)
  end.

(** ** The world *)

Record World : Type := mkWorld {
  getwd : string * error;
  files : gmap string node;
  denied : list (fsop * string);
  servers : gmap string database
}.

Definition is_denied (op : fsop) (p : string) (w : World) : bool :=
  existsb (fun d => fsop_eqb op (fst d) && String.eqb p (snd d)) (denied w).

Definition with_files (fs : gmap string node) (w : World) : World :=
  {| getwd := getwd w; files := fs; denied := denied w; servers := servers w |}.

Definition with_servers (sv : gmap string database) (w : World) : World :=
  {| getwd := getwd w; files := files w; denied := denied w; servers := sv |}.

(** [os.Stat]: an error when the path may not be examined, the not-exist
    error when nothing is there. *)
Definition fs_Stat (p : string) (w : World) : error * World :=
  if is_denied OpStat p w then (Some (ErrOther ("stat " +:+ p +:+ ": permission denied")), w)
  else
    match files w !! p with
    | Some _ => (None, w)
    | None => (Some (ErrNotExist ("stat " +:+ p +:+ ": no such file or directory")), w)
    end.

Definition remove_tree (p : string) (fs : gmap string node) : gmap string node :=
  filter (fun kv => outside p (fst kv) = true) fs.

(** [os.RemoveAll]: no error when the path does not exist; when it exists
    and may be removed, it goes with all that lies below it.  A failed
    removal is taken to remove nothing. *)
Definition fs_RemoveAll (p : string) (w : World) : error * World :=
  match files w !! p with
  | Some _ =>
      if is_denied OpRemove p w
      then (Some (ErrOther ("unlinkat " +:+ p +:+ ": permission denied")), w)
      else (None, with_files (remove_tree p (files w)) w)
  | None => (None, with_files (remove_tree p (files w)) w)
  end.

Definition is_file (fs : gmap string node) (p : string) : bool :=
  match fs !! p with Some File => true | _ => false end.

Definition make_dirs (ps : list string) (fs : gmap string node) : gmap string node :=
  foldr (fun q m => <[q := Dir]> m) fs ps.

(** [os.MkdirAll]: nothing to do when the path is a directory; an error when
    the path or a directory above it is a file, or when the directory may not
    be made; otherwise the path and the missing directories above it are
    made. *)
Definition fs_MkdirAll (p : string) (perm : Z) (w : World) : error * World :=
  match files w !! p with
  | Some Dir => (None, w)
  | _ =>
      if existsb (is_file (files w)) (ancestors p ++ [p])
      then (Some (ErrOther ("mkdir " +:+ p +:+ ": not a directory")), w)
      else if is_denied OpMkdir p w
      then (Some (ErrOther ("mkdir " +:+ p +:+ ": permission denied")), w)
      else (None, with_files (make_dirs (ancestors p ++ [p]) (files w)) w)
  end.

(** psql reaches the server named by its first argument. *)
Definition run_psql (args : list string) (w : World) : error * World :=
  match args with
  | [dsn; flag; text] =>
      if String.eqb flag "-c" then
        match servers w !! dsn with
        | Some db =>
            let '(err, db') := psql_c text db in
            (err, with_servers (<[dsn := db']> (servers w)) w)
        | None => (Some (ErrOther "exit status 2"), w)
        end
      else (Some (ErrOther "exit status 1"), w)
  | _ => (Some (ErrOther "exit status 1"), w)
  end.

(** The world as an environment, for any behaviour [tools] of the commands
    other than psql. *)
Definition model (tools : Cmd -> World -> error * World) : Env World :=
  {| env_Getwd := fun w => (getwd w, w);
     env_Open := fun driver _ w =>
       if String.eqb driver "postgres" then (None, w)
       else (Some (ErrOther ("sql: unknown driver " +:+ driver)), w);
     env_Ping := fun dsn w =>
       match servers w !! dsn with
       | Some _ => (None, w)
       | None => (Some (ErrOther "connection refused"), w)
       end;
     env_Close := fun _ w => (None, w);
     env_Run := fun c w =>
       if String.eqb (Path c) "psql" then run_psql (Args c) w else tools c w;
     env_RemoveAll := fs_RemoveAll;
     env_MkdirAll := fs_MkdirAll;
     env_Stat := fs_Stat;
     filepath_Join := fun a b => a +:+ "/" +:+ b |}.

(** The directory [p] can be made: no file stands where a directory above it
    is needed, and making it is not denied. *)
Definition can_make_dir (p : string) (w : World) : Prop :=
  existsb (is_file (files w)) (ancestors p) = false /\ is_denied OpMkdir p w = false.

(** [p] is a directory with nothing below it. *)
Definition empty_dir (p : string) (w : World) : Prop :=
  files w !! p = Some Dir /\ forall q, under p q = true -> files w !! q = None.

(** ** What the claims say of the cleanup script *)

Definition set_replica : string := "SET session_replication_role = 'replica';".
Definition set_origin : string := "SET session_replication_role = 'origin';".

(** The statement a drop loop executes for the name [n]. *)
Definition drop_text (kw n : string) : string :=
  (("DROP " +:+ kw +:+ " IF EXISTS public.") +:+ n) +:+ " CASCADE;".

Definition in_public (o : pgobj) : bool := String.eqb (oschema o) "public".

(** The objects outside the public schema. *)
Definition other_schemas (db : database) : list pgobj :=
  List.filter (fun o => negb (in_public o)) (objects db).

(** Nothing outside the public schema depends on something inside it. *)
Definition no_cross_dependency (db : database) : Prop :=
  forall x y, (x, y) ∈ depends db -> in_public y = true -> in_public x = true.

(** The destination is empty: its public schema holds nothing. *)
Definition public_empty (db : database) : Prop :=
  forall o, o ∈ objects db -> in_public o = false.

(** The three catalog queries. *)
Definition q_tables : sqlquery :=
  mkQuery "tablename" "pg_tables" [CondEq "schemaname" "public"].
Definition q_sequences : sqlquery :=
  mkQuery "sequencename" "pg_sequences" [CondEq "schemaname" "public"].
Definition q_enums : sqlquery :=
  mkQuery "typname" "pg_type"
    [CondEq "typcategory" "E"; CondEqCast "typnamespace" "public" "regnamespace"].

(** The command of [cleanDestinationDB]. *)
Definition cleanCmd (destinationDB cleanSQL : string) : Cmd :=
  set_Stderr os_Stderr (set_Stdout os_Stdout
    (exec_Command "psql" [destinationDB; "-c"; cleanSQL])).

(** The keyword of a kind in a DROP statement. *)
Definition keyword (k : objkind) : string :=
  match k with
  | Table => "TABLE"
  | Sequence => "SEQUENCE"
  | EnumType => "TYPE"
  end.

(** What C3 says of the step in Go: one command, psql with the script, whose
    result is the result of the step. *)
Definition single_script {W} (dst text : string) (r : run W error) : Prop :=
  exists err, runs (events r) = [(cleanCmd dst text, err)] /\ out r = Done err.

Definition kind_in (k : objkind) (kinds : list objkind) : bool :=
  existsb (objkind_eqb k) kinds.

(** The names the script splices into its statements are read as written:
    every object of the public schema of one of the [kinds] has a name that
    needs no quotes. *)
Definition plain_names (kinds : list objkind) (db : database) : bool :=
  forallb (fun o => negb (in_public o && kind_in (okind o) kinds) || plain_ident (oname o))
    (objects db).

(** What C3 says of a run of the script to its end, for the kinds of object
    it drops and a public schema whose names of those kinds are read as
    written: it executes the disabling SET, then only drops of those kinds,
    one of them for every table the public schema had, then the enabling
    SET; the session ends with enforcement enabled; no object of those kinds
    is left in the public schema. *)
Definition cleans_between_toggles (kinds : list objkind) (text : string) : Prop :=
  forall s s', plain_names kinds (sdb s) = true -> run_text text s = Some s' ->
    role s' = Origin /\
    (exists drops,
       executed s' = executed s ++ [set_replica] ++ drops ++ [set_origin] /\
       (forall d, d ∈ drops -> exists k n, k ∈ kinds /\ d = drop_text (keyword k) n) /\
       (forall o, o ∈ objects (sdb s) -> okind o = Table -> in_public o = true ->
          drop_text (keyword Table) (oname o) ∈ drops)) /\
    (forall o, o ∈ objects (sdb s') -> in_public o = true -> okind o ∉ kinds).

(** What a run of the script names, for a public schema whose names of the
    [kinds] are read as written: every statement it executes is one of the
    two SETs or the drop of an object that the catalog lists in the public
    schema. *)
Definition names_public_only (kinds : list objkind) (text : string) : Prop :=
  forall s s', plain_names kinds (sdb s) = true -> run_text text s = Some s' ->
    exists stmts, executed s' = executed s ++ stmts /\
      forall d, d ∈ stmts ->
        d = set_replica \/ d = set_origin \/
        exists k n, d = drop_text (keyword k) n /\ mkObj k "public" n ∈ objects (sdb s).

(** A server that raises an error at every statement the model does not
    read. *)
Definition no_other_statement : string -> option (database * reprole) := fun _ => None.

(** A database in which a table outside the public schema depends on a table
    inside it: a child table kept in the schema [archive]. *)
Definition events_table : pgobj := mkObj Table "public" "events".
Definition archived_child : pgobj := mkObj Table "archive" "events_2023".

Definition cascade_db : database :=
  {| objects := [events_table; archived_child];
     depends := [(archived_child, events_table)];
     held := [];
     elsewhere := no_other_statement |}.

(** Running a step twice in succession from the world [w]: neither run
    reports an error, and the second leaves the world the first left. *)
Definition twice_without_error (step : M World error) (w : World) : Prop :=
  let r1 := step w in
  let r2 := step (final r1) in
  out r1 = Done None /\ out r2 = Done None /\ final r2 = final r1.

(** What each catalog query selects from an object. *)
Definition selects (k : objkind) (q : sqlquery) : Prop :=
  forall o, select_from q o =
    if objkind_eqb (okind o) k && in_public o then Some (oname o) else None.


(** One session comes from another by drops of public objects: the role and
    what is not an object stay, objects only leave, and objects outside the
    public schema stay when nothing there depends on the public schema. *)
Definition shrunk (s s' : session) : Prop :=
  role s' = role s /\
  depends (sdb s') = depends (sdb s) /\
  held (sdb s') = held (sdb s) /\
  (forall x, x ∈ objects (sdb s') -> x ∈ objects (sdb s)) /\
  (no_cross_dependency (sdb s) -> other_schemas (sdb s') = other_schemas (sdb s)).


(** ** Worlds for examples *)

(** Tools that do nothing and succeed. *)
Definition quiet_tools : Cmd -> World -> error * World := fun _ w => (None, w).

(** A database with nothing in its public schema. *)
Definition logs_db : database :=
  {| objects := [mkObj Table "audit" "log"]; depends := []; held := [];
     elsewhere := no_other_statement |}.

(** A database with public objects and, apart from them, a table and an enum
    type in other schemas that depend on nothing. *)
Definition shop_db : database :=
  {| objects := [mkObj Table "public" "users"; mkObj Sequence "public" "users_id_seq";
                 mkObj EnumType "public" "mood"; mkObj Table "audit" "log";
                 mkObj EnumType "audit" "level"];
     depends := [(mkObj Sequence "public" "users_id_seq", mkObj Table "public" "users")];
     held := [];
     elsewhere := no_other_statement |}.

(** A name that is not read as written: the table was created as ["Users"],
    in quotes.  The server of this database does with the statement the
    script builds for it, [DROP TABLE IF EXISTS public.Users CASCADE;], what
    PostgreSQL does: it folds the name to [users], finds no such table and
    skips the statement with a notice ([n]: how many such statements it
    answers). *)
Fixpoint mixed_case_db (n : nat) : database :=
  {| objects := [mkObj Table "public" "Users"];
     depends := [];
     held := [];
     elsewhere := fun sql =>
       match n with
       | O => None
       | S m =>
           if String.eqb sql "DROP TABLE IF EXISTS public.Users CASCADE;"
           then Some (mixed_case_db m, Replica)
           else None
       end |}.

(** Both destinations reachable and empty; the working directory holds no
    backup directory. *)
Definition fresh_world : World :=
  {| getwd := ("/work", None);
     files := {[ "/work" := Dir ]};
     denied := [];
     servers := {[ MainGo.destinationDB := logs_db; Part000.destinationDB := logs_db ]} |}.

(** The backup directory is there, with the schema dump in it. *)
Definition stale_world : World :=
  {| getwd := ("/work", None);
     files := {[ "/work" := Dir; "/work/backup_dir" := Dir;
                 "/work/backup_dir/toc.dat" := File ]};
     denied := [];
     servers := {[ Part000.destinationDB := shop_db ]} |}.

(** * The commands of a run

    What follows reads more off the same code: which commands a run issues
    and in which order, what they are aimed at, which paths the program
    touches, how a run ends. *)

(** A command whose output goes to the terminal. *)
Definition attach (c : Cmd) : Cmd := set_Stderr os_Stderr (set_Stdout os_Stdout c).

Definition psqlCmd (dst sql : string) : Cmd :=
  attach (exec_Command "psql" [dst; "-c"; sql]).

Definition dumpSchemaCmd (src dumpDir : string) : Cmd :=
  attach (exec_Command "pg_dump"
    ["--format=directory"; "--no-owner"; "--no-acl"; "--schema-only";
     "--dbname=" +:+ src; "--file=" +:+ dumpDir]).

Definition restoreSchemaCmd (dst jobs dumpDir : string) : Cmd :=
  attach (exec_Command "pg_restore"
    ["--clean"; "--if-exists"; "--jobs=" +:+ jobs; "--no-owner"; "--no-acl";
     "--schema-only"; "--dbname=" +:+ dst; dumpDir]).

Definition dumpDataCmd (src jobs dumpDir : string) : Cmd :=
  attach (exec_Command "pg_dump"
    ["--format=directory"; "--no-owner"; "--no-acl"; "--data-only";
     "--jobs=" +:+ jobs; "--dbname=" +:+ src; "--file=" +:+ dumpDir]).

(** The data restore of [src/main.go] and [src/unnamed/part_000]. *)
Definition restoreTriggersOffCmd (dst jobs dumpDir : string) : Cmd :=
  attach (exec_Command "pg_restore"
    ["--disable-triggers"; "--jobs=" +:+ jobs; "--no-owner"; "--no-acl";
     "--data-only"; "--dbname=" +:+ dst; dumpDir]).

(** The data restore of [src/unnamed/part_001]. *)
Definition restoreDataCmd (dst jobs dumpDir : string) : Cmd :=
  attach (exec_Command "pg_restore"
    ["--jobs=" +:+ jobs; "--no-owner"; "--no-acl"; "--data-only";
     "--dbname=" +:+ dst; dumpDir]).

(** The directory [main] works in: [filepath.Join(workingDir, "backup_dir")]
    for the directory [os.Getwd] answers in the world [w]. *)
Definition backup_dir {W} (env : Env W) (w : W) : string :=
  filepath_Join env (fst (fst (env_Getwd env w))) "backup_dir".

(** The commands of a full run of each program, in order, for the backup
    directory [d]. *)
Definition commands_MainGo (d : string) : list Cmd :=
  [ cleanCmd MainGo.destinationDB MainGo.cleanSQL;
    dumpSchemaCmd MainGo.sourceDB d;
    restoreSchemaCmd MainGo.destinationDB MainGo.jobs d;
    psqlCmd MainGo.destinationDB set_replica;
    dumpDataCmd MainGo.sourceDB MainGo.jobs d;
    restoreTriggersOffCmd MainGo.destinationDB MainGo.jobs d;
    psqlCmd MainGo.destinationDB set_origin ].

Definition commands_Part000 (d : string) : list Cmd :=
  [ cleanCmd Part000.destinationDB Part000.cleanSQL;
    dumpSchemaCmd Part000.sourceDB d;
    restoreSchemaCmd Part000.destinationDB Part000.jobs d;
    psqlCmd Part000.destinationDB set_replica;
    dataDumpCmd d;
    startTx;
    restoreCmd d;
    commitTx;
    psqlCmd Part000.destinationDB set_origin ].

Definition commands_Part001 (d : string) : list Cmd :=
  [ dumpDataCmd Part001.sourceDB Part001.jobs d;
    restoreDataCmd Part001.destinationDB Part001.jobs d ].

(** The commands of the run are the first of [expected], in that order. *)
Definition commanded (expected : list Cmd) (evs : list event) : Prop :=
  exists rest, expected = map fst (runs evs) ++ rest.

(** The paths handed to [os.Stat], [os.RemoveAll] and [os.MkdirAll]. *)
Fixpoint fs_paths (evs : list event) : list string :=
  match evs with
  | [] => []
  | EvStat p _ :: evs' => p :: fs_paths evs'
  | EvRemoveAll p _ :: evs' => p :: fs_paths evs'
  | EvMkdirAll p _ _ :: evs' => p :: fs_paths evs'
  | _ :: evs' => fs_paths evs'
  end.

(** The options of a command: all its arguments, but for pg_restore, whose
    last argument is the archive. *)
Definition options (c : Cmd) : list string :=
  if String.eqb (Path c) "pg_restore" then removelast (Args c) else Args c.

Fixpoint find_dbname (args : list string) : option string :=
  match args with
  | [] => None
  | a :: args' =>
      match strip_prefix "--dbname=" a with
      | Some d => Some d
      | None => find_dbname args'
      end
  end.

(** The database a command connects to: the first argument of psql, the
    [--dbname] option of the dump and restore tools. *)
Definition target (c : Cmd) : option string :=
  if String.eqb (Path c) "psql" then head (Args c) else find_dbname (options c).

(** The command either reads the source with pg_dump, or reaches the
    destination with psql or pg_restore. *)
Definition well_targeted (src dst : string) (c : Cmd) : bool :=
  match target c with
  | Some t =>
      (String.eqb (Path c) "pg_dump" && String.eqb t src) ||
      ((String.eqb (Path c) "psql" || String.eqb (Path c) "pg_restore") && String.eqb t dst)
  | None => false
  end.

Definition is_rollback (c : Cmd) : bool :=
  String.eqb (Path c) "psql" &&
  match Args c with
  | [_; flag; sql] => String.eqb flag "-c" && String.eqb sql "ROLLBACK;"
  | _ => false
  end.

(** After a command that failed, the run issues no command, or the one
    ROLLBACK. *)
Definition stops_at_failure (rs : list (Cmd * error)) : Prop :=
  forall pre c e post, rs = pre ++ (c, Some e) :: post ->
    post = [] \/ exists c' e', post = [(c', e')] /\ is_rollback c' = true.

Fixpoint stops_at_failureb (rs : list (Cmd * error)) : bool :=
  match rs with
  | [] => true
  | (_, Some _) :: post =>
      match post with
      | [] => true
      | [(c', _)] => is_rollback c'
      | _ => false
      end
  | (_, None) :: rs' => stops_at_failureb rs'
  end.

(** How a run of [main] ends: when [main] returns, the last thing it did was
    to log [success]; when the process exits, the status is 1 and the last
    thing it did was to log a line that opens with the cross mark. *)
Definition ends_with_a_line {W} (success : string) (r : run W unit) : Prop :=
  (out r = Done tt -> last (events r) = Some (EvLog success)) /\
  (forall code, out r = Exited code ->
     code = 1%Z /\ exists line, last (events r) = Some (EvLog line) /\
       starts_with "❌" line = true).

Definition ends_with_a_lineb {W} (success : string) (r : run W unit) : bool :=
  match last (events r) with
  | Some (EvLog line) =>
      if is_done (out r) then String.eqb line success
      else is_exit1 (out r) && starts_with "❌" line
  | _ => false
  end.

(** The checks every run of [main] passes, whatever the variant. *)
Definition keepsb {W} (src dst success : string) (r : run W unit) : bool :=
  forallb (fun ce => well_targeted src dst (fst ce)) (runs (events r)) &&
  stops_at_failureb (runs (events r)) &&
  ends_with_a_lineb success r.

(** ** The four steps of [src/unnamed/part_001] *)

Definition four_steps : list step :=
  [ConnectivityCheck; BackupDirReset; DataDump; DataRestore].


Definition fail_fast_overb {W} (steps : list step) (r : run W unit) : bool :=
  let evs := events r in
  steps_prefixb (steps_run evs) steps &&
  fail_fastb evs &&
  (negb (existsb failed_return evs) || is_exit1 (out r)) &&
  Bool.eqb (is_done (out r))
    (steps_eqb (steps_run evs) steps && negb (existsb failed_return evs)) &&
  stops_for_causeb r.

(** The run issues no psql command and no schema-only dump or restore. *)
Definition data_only_run (evs : list event) : bool :=
  forallb (fun ce => negb (String.eqb (Path (fst ce)) "psql") && data_only (fst ce))
    (runs evs).

(** ** [testDBConnection] and its handle *)

(** The outside calls of [testDBConnection]: either [sql.Open] fails and
    nothing else is called, or the handle is pinged and then closed, once,
    whatever the ping answered; what [Close] answers changes nothing. *)
Definition opens_pings_closes {W} (connStr : string) (r : run W bool) : Prop :=
  match outside_calls (events r) with
  | [EvOpen driver dsn (Some _)] =>
      driver = "postgres" /\ dsn = connStr /\ out r = Done false
  | [EvOpen driver dsn None; EvPing dsn1 e; EvClose dsn2 _] =>
      driver = "postgres" /\ dsn = connStr /\ dsn1 = connStr /\ dsn2 = connStr /\
      out r = Done (negb (is_err e))
  | _ => False
  end.

(** The working directory cannot be told. *)
Definition lost_world : World :=
  {| getwd := (EmptyString, Some (ErrNotExist "getwd: no such file or directory"));
     files := ∅;
     denied := [];
     servers := ∅ |}.

(** ** The server and the file system, further *)

Definition is_table (o : pgobj) : bool := objkind_eqb (okind o) Table.

(** What is not a table: sequences and enum types, of any schema. *)
Definition non_tables (db : database) : list pgobj :=
  List.filter (fun o => negb (is_table o)) (objects db).

(** Only tables depend on tables. *)
Definition tables_closed (db : database) : Prop :=
  forall x y, (x, y) ∈ depends db -> is_table y = true -> is_table x = true.

(** A destination with a table, a sequence and an enum type that depend on
    nothing. *)
Definition plain_db : database :=
  {| objects := [mkObj Table "public" "users"; mkObj Sequence "public" "ticket_seq";
                 mkObj EnumType "public" "mood"];
     depends := [];
     held := [];
     elsewhere := no_other_statement |}.

(** The files a successful reset of the directory [p] leaves: what lay at
    [p] and below is gone, [p] and the directories above it are there. *)
Definition reset_files (p : string) (fs : gmap string node) : gmap string node :=
  make_dirs (ancestors p ++ [p]) (remove_tree p fs).

(** Both databases of [src/main.go] reachable; the working directory holds
    no backup directory. *)
Definition ready_world : World :=
  {| getwd := ("/work", None);
     files := {[ "/work" := Dir ]};
     denied := [];
     servers := {[ MainGo.sourceDB := shop_db; MainGo.destinationDB := logs_db ]} |}.

(** The statements psql is given in [src/main.go]. *)
Definition statements_MainGo : list string := [MainGo.cleanSQL; set_replica; set_origin].
(** The syntax of each script prints back to the very string of its file. *)
Lemma MainGo_cleanSQL_render : render_do MainGo.cleanBlock = MainGo.cleanSQL.
Proof. vm_compute. reflexivity. Qed.

Lemma Part000_cleanSQL_render : render_do Part000.cleanBlock = Part000.cleanSQL.
Proof. vm_compute. reflexivity. Qed.

(** * Properties of runs *)

Lemma precededb_seen p q seen evs :
  precededb p q seen evs = true ->
  forall pre ev post, evs = pre ++ ev :: post -> p ev = true ->
    seen = true \/ exists ev', ev' ∈ pre /\ q ev' = true.
Proof.
  revert seen. induction evs as [|x evs IH]; intros seen H pre ev post Heq Hp.
  - destruct pre; discriminate.
  - simpl in H. apply andb_prop in H as [Hx Hrest].
    destruct pre as [|y pre]; simpl in Heq; injection Heq as -> ->.
    + rewrite Hp in Hx. simpl in Hx. now left.
    + destruct (IH _ Hrest pre ev post eq_refl Hp) as [Hs | (ev' & Hin & Hq)].
      * apply orb_prop in Hs as [Hs | Hs]; [now left | right].
        exists y. split; [apply list_elem_of_here | exact Hs].
      * right. exists ev'. split; [now apply list_elem_of_further | exact Hq].
Qed.

Lemma precededb_sound p q evs :
  precededb p q false evs = true ->
  forall pre ev post, evs = pre ++ ev :: post -> p ev = true ->
    exists ev', ev' ∈ pre /\ q ev' = true.
Proof.
  intros H pre ev post Heq Hp.
  destruct (precededb_seen _ _ _ _ H pre ev post Heq Hp) as [Hf | Hex];
    [discriminate | exact Hex].
Qed.

Lemma existsb_none (p : event -> bool) evs :
  existsb p evs = false -> ~ exists ev, ev ∈ evs /\ p ev = true.
Proof.
  intros H (ev & Hin & Hp).
  assert (existsb p evs = true) as Ht.
  { apply existsb_exists. exists ev. split; [now apply list_elem_of_In | exact Hp]. }
  congruence.
Qed.

Lemma forallb_all (p : event -> bool) evs :
  forallb p evs = true -> forall ev, ev ∈ evs -> p ev = true.
Proof.
  intros H ev Hin. rewrite forallb_forall in H. apply H. now apply list_elem_of_In.
Qed.

Lemma source_checked_first_by_computation src dst evs :
  source_checked_firstb src dst evs = true ->
  source_checked_first src dst evs.
Proof.
  intros H. apply andb_prop in H as [Hord Hshort]. split.
  - now apply precededb_sound.
  - intros Hfail ev Hin. apply orb_prop in Hshort as [Hnone | Hall].
    + apply negb_true_iff in Hnone. now apply existsb_none in Hnone.
    + apply negb_true_iff. now apply (forallb_all _ _ Hall).
Qed.

(** Running a computation against an arbitrary environment: every answer of
    the environment is split into its cases. *)
Ltac answer :=
  match goal with
  | |- context [env_Getwd ?e ?w] =>
      destruct (env_Getwd e w) as [[? [?|]] ?] eqn:?
  | |- context [env_Open ?e ?a ?b ?w] =>
      destruct (env_Open e a b w) as [[?|] ?] eqn:?
  | |- context [env_Ping ?e ?a ?w] =>
      destruct (env_Ping e a w) as [[?|] ?] eqn:?
  | |- context [env_Close ?e ?a ?w] =>
      destruct (env_Close e a w) as [? ?] eqn:?
  | |- context [env_Run ?e ?a ?w] =>
      destruct (env_Run e a w) as [[?|] ?] eqn:?
  | |- context [env_RemoveAll ?e ?a ?w] =>
      destruct (env_RemoveAll e a w) as [[?|] ?] eqn:?
  | |- context [env_MkdirAll ?e ?a ?b ?w] =>
      destruct (env_MkdirAll e a b w) as [[?|] ?] eqn:?
  | |- context [env_Stat ?e ?a ?w] =>
      destruct (env_Stat e a w) as [[[?|?]|] ?] eqn:?
  end.

Ltac unfold_program :=
  cbv -[String.append env_Getwd env_Open env_Ping env_Close env_Run
        env_RemoveAll env_MkdirAll env_Stat filepath_Join].


Ltac all_cases main :=
  match goal with
  | |- context [main ?env ?w] =>
      let E := fresh "E" in
      destruct (main env w) as [? ? ?] eqn:E; revert E;
      unfold_program; repeat (answer; cbv beta iota zeta);
      intros [= <- <- <-]; vm_compute; reflexivity
  end.

(** Every run of each program passes the checks of its claims; the claims
    read the checks back as statements about the run. *)
Lemma MainGo_main_passes {W} (env : Env W) (w : W) :
  let r := MainGo.main env w in
  source_checked_firstb MainGo.sourceDB MainGo.destinationDB (events r) &&
  fail_fast_runb r && aborts_untouchedb MainGo.destinationDB r = true.
Proof. cbv zeta. unfold events. all_cases (@MainGo.main W). Qed.

Lemma Part000_main_passes {W} (env : Env W) (w : W) :
  let r := Part000.main env w in
  source_checked_firstb Part000.sourceDB Part000.destinationDB (events r) &&
  fail_fast_runb r && aborts_untouchedb Part000.destinationDB r = true.
Proof. cbv zeta. unfold events. all_cases (@Part000.main W). Qed.

Lemma Part001_main_passes {W} (env : Env W) (w : W) :
  let r := Part001.main env w in
  source_checked_firstb Part001.sourceDB Part001.destinationDB (events r) &&
  aborts_untouchedb Part001.destinationDB r = true.
Proof. cbv zeta. unfold events. all_cases (@Part001.main W). Qed.

Lemma step_eqb_eq a b : step_eqb a b = true -> a = b.
Proof. destruct a, b; simpl; congruence. Qed.

Lemma steps_prefixb_sound l1 l2 :
  steps_prefixb l1 l2 = true -> exists rest, l2 = l1 ++ rest.
Proof.
  revert l2. induction l1 as [|a l1 IH]; intros l2 H.
  - exists l2. reflexivity.
  - destruct l2 as [|b l2]; simpl in H; [discriminate|].
    apply andb_prop in H as [Hab Hrest].
    apply step_eqb_eq in Hab as ->.
    destruct (IH _ Hrest) as [rest ->]. exists rest. reflexivity.
Qed.

Lemma steps_eqb_eq l1 l2 : steps_eqb l1 l2 = true -> l1 = l2.
Proof.
  revert l2. induction l1 as [|a l1 IH]; intros [|b l2] H; simpl in H;
    try discriminate; [reflexivity|].
  apply andb_prop in H as [Hab Hrest].
  apply step_eqb_eq in Hab as ->. now rewrite (IH _ Hrest).
Qed.

Lemma steps_eqb_refl l : steps_eqb l l = true.
Proof. induction l as [|a l IH]; [reflexivity|]. simpl. rewrite IH. now destruct a. Qed.

Lemma fail_fastb_sound evs :
  fail_fastb evs = true ->
  forall pre f args post, evs = pre ++ EvReturn f args true :: post ->
    exists line, post = [EvLog line] /\
      starts_with (diagnostic (step_of f)) line = true.
Proof.
  induction evs as [|x evs IH]; intros H pre f args post Heq.
  - destruct pre; discriminate.
  - destruct pre as [|y pre]; simpl in Heq; injection Heq as -> ->.
    + simpl in H. destruct post as [|[] [|]]; try discriminate.
      eexists. split; [reflexivity | exact H].
    + apply (IH) with (pre := pre) (args := args); [|reflexivity].
      destruct y; try exact H.
      destruct failed; [|exact H].
      simpl in H. destruct pre as [|z [|z' pre]]; simpl in H; try discriminate.
      all: destruct z; discriminate.
Qed.

Lemma failed_return_in pre f args post :
  existsb failed_return (pre ++ EvReturn f args true :: post) = true.
Proof.
  apply existsb_exists. exists (EvReturn f args true).
  split; [apply in_or_app; right; now left | reflexivity].
Qed.

Lemma is_exit1_eq {A} (o : outcome A) : is_exit1 o = true -> o = Exited 1.
Proof. destruct o; simpl; [discriminate|]. intros H. apply Z.eqb_eq in H. now subst. Qed.

Lemma failed_return_split evs :
  existsb failed_return evs = true ->
  exists pre f args post, evs = pre ++ EvReturn f args true :: post.
Proof.
  induction evs as [|x evs IH]; intros H; [discriminate|]. simpl in H.
  destruct (failed_return x) eqn:Hx.
  - destruct x as [| | | | | | | | | |f args []]; try discriminate.
    now exists [], f, args, evs.
  - destruct (IH H) as (pre & f & args & post & ->).
    now exists (x :: pre), f, args, post.
Qed.

Lemma stops_for_cause_by_computation {W} (r : run W unit) :
  stops_for_causeb r = true -> stops_for_cause r.
Proof.
  unfold stops_for_causeb, stops_for_cause. cbv zeta. intros H.
  apply andb_prop in H as [Hexit Hgo]. split.
  - intros code Hc. rewrite Hc in Hexit. simpl in Hexit.
    apply orb_prop in Hexit as [Hg | Hf].
    + left. unfold getwd_failed.
      destruct (events r) as [|x l]; [discriminate|].
      destruct x as [d err| | | | | | | | | |]; try discriminate.
      destruct err as [e|]; [|discriminate].
      destruct l as [|y l]; [discriminate|].
      destruct y as [|line| | | | | | | | |]; try discriminate.
      destruct l; [|discriminate].
      now exists d, e, line.
    + right. now apply failed_return_split.
  - intros Hnone. rewrite Hnone in Hgo. simpl in Hgo.
    destruct (out r) as [[]|]; [reflexivity | discriminate].
Qed.

Lemma fail_fast_run_by_computation {W} (r : run W unit) :
  fail_fast_runb r = true -> fail_fast_run r.
Proof.
  unfold fail_fast_runb, fail_fast_run. cbv zeta. intros H.
  rewrite !andb_true_iff in H.
  destruct H as [[[[[[Hpre Hff] Hexit] Hdone] Hout] Hdata] Hcause].
  apply Bool.eqb_prop in Hdone.
  split; [now apply steps_prefixb_sound|].
  split.
  { intros pre f args post Heq. split.
    - rewrite Heq, failed_return_in in Hexit. now apply is_exit1_eq.
    - now apply (fail_fastb_sound _ Hff pre f args). }
  split.
  { split.
    - intros Hd. rewrite Hd in Hdone. simpl in Hdone. symmetry in Hdone.
      apply andb_prop in Hdone as [Hs Hf].
      split; [now apply steps_eqb_eq | now apply negb_true_iff].
    - intros [Hs Hf]. rewrite Hs, Hf, steps_eqb_refl in Hdone. simpl in Hdone.
      destruct (out r) as [[]|]; [reflexivity | discriminate]. }
  split.
  { intros code Hc. rewrite Hc in Hout. simpl in Hout. now apply Z.eqb_eq in Hout. }
  split; [|now apply stops_for_cause_by_computation].
  intros Hfail ev Hin. apply orb_prop in Hdata as [Hnone | Hall].
  - apply negb_true_iff in Hnone. now apply existsb_none in Hnone.
  - apply negb_true_iff. now apply (forallb_all _ _ Hall).
Qed.

Lemma aborts_untouched_by_computation {W} dst (r : run W unit) :
  aborts_untouchedb dst r = true -> aborts_untouched dst r.
Proof.
  unfold aborts_untouchedb, aborts_untouched. intros H Hfail.
  apply orb_prop in H as [Hnone | H].
  - apply negb_true_iff in Hnone. now apply existsb_none in Hnone.
  - apply andb_prop in H as [Hexit Hall]. split; [now apply is_exit1_eq|].
    intros ev Hin. apply negb_true_iff. now apply (forallb_all _ _ Hall).
Qed.

(** C9: in each of the three programs the source endpoint is checked before
    the destination endpoint: whatever reaches the destination endpoint
    comes after the check of the source has returned success, and in a run
    where the check of the source fails nothing reaches the destination
    endpoint. *)
Theorem C9_source_checked_before_destination {W} (env : Env W) (w : W) :
  source_checked_first MainGo.sourceDB MainGo.destinationDB
    (events (MainGo.main env w)) /\
  source_checked_first Part000.sourceDB Part000.destinationDB
    (events (Part000.main env w)) /\
  source_checked_first Part001.sourceDB Part001.destinationDB
    (events (Part001.main env w)).
Proof.
  pose proof (MainGo_main_passes env w) as HA.
  pose proof (Part000_main_passes env w) as HB.
  pose proof (Part001_main_passes env w) as HC.
  cbv zeta in HA, HB, HC.
  apply andb_prop in HA as [HA _]. apply andb_prop in HA as [HA _].
  apply andb_prop in HB as [HB _]. apply andb_prop in HB as [HB _].
  apply andb_prop in HC as [HC _].
  split; [|split]; now apply source_checked_first_by_computation.
Qed.


(** C4: [testDBConnection] always returns, and it returns true exactly when
    [sql.Open] gives no error and the ping that follows gives none; in a run
    of [main] where the check of the destination fails, the process exits
    with status 1 and no command has been run and no directory removed or
    made: nothing has been issued against the destination. *)
Theorem C4_connectivity_check {W} (env : Env W) :
  (forall connStr dbType w,
     exists b, out (testDBConnection env connStr dbType w) = Done b /\
       (b = true <-> opens_and_pings env connStr w)) /\
  (forall w,
     aborts_untouched MainGo.destinationDB (MainGo.main env w) /\
     aborts_untouched Part000.destinationDB (Part000.main env w) /\
     aborts_untouched Part001.destinationDB (Part001.main env w)).
Proof.
  split.
  - intros connStr dbType w. unfold opens_and_pings.
    cbv -[String.append env_Open env_Ping env_Close].
    destruct (env_Open env "postgres" connStr w) as [[e1|] w1] eqn:Hopen;
      cbv beta iota zeta.
    + exists false. split; [reflexivity|]. split; [discriminate|].
      intros (w1' & w2' & Ho & _). discriminate.
    + destruct (env_Ping env connStr w1) as [[e2|] w2] eqn:Hping;
        cbv beta iota zeta;
        destruct (env_Close env connStr w2) as [e3 w3]; cbv beta iota zeta.
      * exists false. split; [reflexivity|]. split; [discriminate|].
        intros (w1' & w2' & Ho & Hp). injection Ho as <-.
        rewrite Hping in Hp. discriminate.
      * exists true. split; [reflexivity|]. split; [|reflexivity].
        intros _. exists w1, w2. split; [reflexivity | exact Hping].
  - intros w.
    pose proof (MainGo_main_passes env w) as HA.
    pose proof (Part000_main_passes env w) as HB.
    pose proof (Part001_main_passes env w) as HC.
    cbv zeta in HA, HB, HC.
    apply andb_prop in HA as [_ HA].
    apply andb_prop in HB as [_ HB].
    apply andb_prop in HC as [_ HC].
    split; [|split]; now apply aborts_untouched_by_computation.
Qed.

Ltac in_list H :=
  repeat (apply elem_of_cons in H as [H|H]; [try discriminate H|]);
  try (apply elem_of_nil in H; destruct H).

(** C2: in [src/unnamed/part_000] the data restore runs [psql -c "BEGIN;"]
    first, as a command of its own.  If that fails nothing else is run.
    Otherwise pg_restore is run; when it succeeds [psql -c "COMMIT;"] is run
    as a third command and its result is the result of the step; when it
    fails with [e], [psql -c "ROLLBACK;"] is run, its result is dropped, and
    the step returns "data restore failed: e".  In [main] a failed data
    restore ends the run with exit status 1 after the fatal line of the
    step. *)
Theorem C2_restore_between_begin_and_commit {W} (env : Env W) (dumpDir : string) (w : W) :
  let r := Part000.restoreDataWithTransaction env dumpDir w in
  match runs (events r) with
  | [(c1, Some e)] =>
      c1 = startTx /\ out r = Done (fmt_Errorf "failed to start transaction: " e)
  | [(c1, None); (c2, None); (c3, err)] =>
      c1 = startTx /\ c2 = restoreCmd dumpDir /\ c3 = commitTx /\ out r = Done err
  | [(c1, None); (c2, Some e); (c3, _)] =>
      c1 = startTx /\ c2 = restoreCmd dumpDir /\ c3 = rollbackTx /\
      out r = Done (fmt_Errorf "data restore failed: " e)
  | _ => False
  end /\
  let m := Part000.main env w in
  forall pre args post,
    events m = pre ++ EvReturn F_restoreDataWithTransaction args true :: post ->
    out m = Exited 1 /\
    exists line, post = [EvLog line] /\
      starts_with "❌ Data restoration failed: " line = true.
Proof.
  split.
  - unfold events.
    destruct (Part000.restoreDataWithTransaction env dumpDir w) as [o w' t] eqn:E.
    revert E. unfold_program. repeat (answer; cbv beta iota zeta).
    all: intros [= <- <- <-]; cbv beta iota zeta; repeat split; reflexivity.
  - cbv zeta. intros pre args post Heq.
    pose proof (Part000_main_passes env w) as HB. cbv zeta in HB.
    apply andb_prop in HB as [HB _]. apply andb_prop in HB as [_ HB].
    apply fail_fast_run_by_computation in HB.
    destruct HB as (_ & Hff & _). exact (Hff pre _ args post Heq).
Qed.



(** * The backup directory *)

Lemma string_length_append (a b : string) :
  String.length (a +:+ b) = (String.length a + String.length b)%nat.
Proof. induction a as [|c a IH]; simpl; [reflexivity | now rewrite IH]. Qed.

Lemma starts_with_length (a b : string) :
  starts_with a b = true -> (String.length a <= String.length b)%nat.
Proof.
  revert b. induction a as [|c a IH]; intros b H; simpl; [lia|].
  destruct b as [|d b]; simpl in H; [discriminate|].
  apply andb_prop in H as [_ H]. apply IH in H. simpl. lia.
Qed.

Lemma under_longer (p q : string) :
  under p q = true -> (String.length p < String.length q)%nat.
Proof.
  unfold under. intros H. apply starts_with_length in H.
  rewrite string_length_append in H. simpl in H. lia.
Qed.

Lemma ancestors_from_length (acc s q : string) :
  q ∈ ancestors_from acc s ->
  (String.length q < String.length acc + String.length s)%nat.
Proof.
  revert acc. induction s as [|c s IH]; intros acc H; simpl in H.
  - apply elem_of_nil in H. destruct H.
  - apply elem_of_app in H as [H | H].
    + destruct (_ && _); [|apply elem_of_nil in H; destruct H].
      apply list_elem_of_singleton in H as ->. simpl. lia.
    + apply IH in H. rewrite string_length_append in H. simpl in *. lia.
Qed.

Lemma chain_not_under (p q : string) :
  q ∈ ancestors p ++ [p] -> under p q = false.
Proof.
  intros H. destruct (under p q) eqn:Hu; [|reflexivity].
  apply under_longer in Hu.
  apply elem_of_app in H as [H | H].
  - apply ancestors_from_length in H. simpl in H. lia.
  - apply list_elem_of_singleton in H as ->. lia.
Qed.

Lemma make_dirs_lookup_in (ps : list string) (fs : gmap string node) (q : string) :
  q ∈ ps -> make_dirs ps fs !! q = Some Dir.
Proof.
  induction ps as [|x ps IH]; intros H; [apply elem_of_nil in H; destruct H|].
  simpl. destruct (decide (x = q)) as [->|Hne].
  - apply lookup_insert_eq.
  - rewrite lookup_insert_ne by exact Hne. apply IH.
    apply elem_of_cons in H as [->|H]; [congruence | exact H].
Qed.

Lemma make_dirs_lookup_out (ps : list string) (fs : gmap string node) (q : string) :
  q ∉ ps -> make_dirs ps fs !! q = fs !! q.
Proof.
  induction ps as [|x ps IH]; intros H; [reflexivity|].
  simpl. apply not_elem_of_cons in H as [Hne H].
  rewrite lookup_insert_ne by congruence. now apply IH.
Qed.

Lemma remove_tree_gone (p q : string) (fs : gmap string node) :
  outside p q = false -> remove_tree p fs !! q = None.
Proof.
  intros H. unfold remove_tree. apply map_lookup_filter_None. right.
  intros x _. simpl. congruence.
Qed.

Lemma remove_tree_kept (p q : string) (fs : gmap string node) :
  outside p q = true -> remove_tree p fs !! q = fs !! q.
Proof.
  intros H. unfold remove_tree.
  destruct (fs !! q) as [x|] eqn:Hq.
  - apply map_lookup_filter_Some. split; [exact Hq | exact H].
  - apply map_lookup_filter_None. now left.
Qed.

Lemma outside_self (p : string) : outside p p = false.
Proof. unfold outside. now rewrite String.eqb_refl. Qed.

Lemma outside_under (p q : string) : under p q = true -> outside p q = false.
Proof. unfold outside. intros ->. now rewrite orb_true_r. Qed.

Lemma outside_ancestor (p q : string) : q ∈ ancestors p -> outside p q = true.
Proof.
  intros H. unfold outside.
  rewrite (chain_not_under p q) by (apply elem_of_app; now left).
  rewrite orb_false_r. apply negb_true_iff. apply String.eqb_neq. intros ->.
  apply ancestors_from_length in H. simpl in H. lia.
Qed.

(** What [resetBackupDir] does, returns and leaves, in any environment. *)
Lemma resetBackupDir_run {W} (env : Env W) (p : string) (w : W) :
  let r := resetBackupDir env p w in
  let '(e1, w1) := env_RemoveAll env p w in
  match e1 with
  | Some e =>
      outside_calls (events r) = [EvRemoveAll p e1] /\
      out r = Done (fmt_Errorf "failed to remove backup directory: " e) /\ final r = w1
  | None =>
      let '(e2, w2) := env_MkdirAll env p perm_0755 w1 in
      outside_calls (events r) = [EvRemoveAll p None; EvMkdirAll p perm_0755 e2] /\
      out r = Done e2 /\ final r = w2
  end.
Proof.
  cbv zeta. unfold events.
  destruct (resetBackupDir env p w) as [o w' t] eqn:E. revert E.
  unfold_program. repeat (answer; cbv beta iota zeta).
  all: intros [= <- <- <-]; repeat split; reflexivity.
Qed.

Lemma no_file_after_remove (p : string) (fs : gmap string node) :
  existsb (is_file fs) (ancestors p) = false ->
  existsb (is_file (remove_tree p fs)) (ancestors p ++ [p]) = false.
Proof.
  intros H. rewrite existsb_app. apply orb_false_iff. split.
  - apply not_true_is_false. intros Hex. apply existsb_exists in Hex as (q & Hin & Hq).
    assert (existsb (is_file fs) (ancestors p) = true) as Ht; [|congruence].
    apply existsb_exists. exists q. split; [exact Hin|].
    unfold is_file in *. rewrite remove_tree_kept in Hq; [exact Hq|].
    apply outside_ancestor. now apply list_elem_of_In.
  - simpl. unfold is_file. now rewrite remove_tree_gone by apply outside_self.
Qed.

(** C6: [resetBackupDir] on the modelled file system.  When nothing exists
    at the path, the removal reports no error, the directory is then made,
    and the step returns what making it returns: no error as soon as the
    directory can be made.  And whenever the step succeeds, the path is
    afterwards a directory with nothing below it. *)
Theorem C6_reset_backup_dir (tools : Cmd -> World -> error * World) (w : World) (p : string) :
  let r := resetBackupDir (model tools) p w in
  (files w !! p = None ->
     exists e2,
       outside_calls (events r) = [EvRemoveAll p None; EvMkdirAll p perm_0755 e2] /\
       out r = Done e2 /\
       (can_make_dir p w -> e2 = None)) /\
  (out r = Done None -> empty_dir p (final r)).
Proof.
  pose proof (resetBackupDir_run (model tools) p w) as Hrun.
  cbv zeta in *. simpl env_RemoveAll in Hrun. simpl env_MkdirAll in Hrun.
  set (r := resetBackupDir (model tools) p w) in *. clearbody r.
  assert (files (with_files (remove_tree p (files w)) w) !! p = None) as Hgone.
  { simpl. apply remove_tree_gone, outside_self. }
  split.
  - intros Hnone.
    unfold fs_RemoveAll in Hrun. rewrite Hnone in Hrun.
    destruct (fs_MkdirAll p perm_0755 (with_files (remove_tree p (files w)) w))
      as [e2 w2] eqn:Hmk.
    destruct Hrun as (Hcalls & Hout & _).
    exists e2. split; [exact Hcalls|]. split; [exact Hout|].
    intros [Hfiles Hallowed].
    unfold fs_MkdirAll in Hmk. rewrite Hgone in Hmk.
    simpl files in Hmk. rewrite (no_file_after_remove _ _ Hfiles) in Hmk.
    assert (is_denied OpMkdir p (with_files (remove_tree p (files w)) w) = false) as Hd
      by exact Hallowed.
    rewrite Hd in Hmk. now injection Hmk as <- _.
  - intros Hok. unfold fs_RemoveAll in Hrun.
    assert (forall w1 : World, w1 = with_files (remove_tree p (files w)) w ->
            (let '(e2, w2) := fs_MkdirAll p perm_0755 w1 in
             outside_calls (events r) = [EvRemoveAll p None; EvMkdirAll p perm_0755 e2] /\
             out r = Done e2 /\ final r = w2) -> empty_dir p (final r)) as Hmk.
    { intros w1 ->. unfold fs_MkdirAll. rewrite Hgone.
      destruct (existsb _ _); cbv beta iota zeta.
      { intros (_ & H & _). congruence. }
      destruct (is_denied OpMkdir p _); cbv beta iota zeta.
      { intros (_ & H & _). congruence. }
      intros (_ & _ & ->). split; simpl.
      - apply make_dirs_lookup_in. apply elem_of_app. right. apply list_elem_of_here.
      - intros q Hq. rewrite make_dirs_lookup_out.
        + apply remove_tree_gone. now apply outside_under.
        + intros Hin. apply chain_not_under in Hin. congruence. }
    destruct (files w !! p).
    + destruct (is_denied OpRemove p w).
      * destruct Hrun as (_ & Hrun & _). rewrite Hok in Hrun. discriminate.
      * now apply (Hmk _ eq_refl).
    + now apply (Hmk _ eq_refl).
Qed.

(** The world in which the guarded [dumpData] runs its command. *)
Lemma dumpData_run_world {W} (env : Env W) (p : string) (w w' : W) (c : Cmd) (e : error) :
  (w', EvRun c e) ∈ trace (Part000.dumpData env p w) ->
  let '(e0, w0) := env_Stat env p w in
  (os_IsNotExist e0 = true /\ w' = w0) \/
  (os_IsNotExist e0 = false /\ env_RemoveAll env p w0 = (None, w')).
Proof.
  destruct (Part000.dumpData env p w) as [o wf t] eqn:E. revert E.
  unfold_program. repeat (answer; cbv beta iota zeta).
  all: intros [= <- <- <-] Hin; in_list Hin.
  all: injection Hin as -> _ _.
  all: first [ left; split; reflexivity | right; split; reflexivity ].
Qed.

Lemma dumpData_guarded {W} (env : Env W) (p : string) (w : W) :
  guarded_dump p (Part000.dumpData env p w).
Proof.
  unfold guarded_dump, events.
  destruct (Part000.dumpData env p w) as [o wf t] eqn:E. revert E.
  unfold_program. repeat (answer; cbv beta iota zeta).
  all: intros [= <- <- <-]; cbv beta iota zeta; repeat split; reflexivity.
Qed.

(** C7: the guarded [dumpData] of [src/unnamed/part_000].  In any
    environment it examines the path, removes it unless it was reported
    missing, and runs the dump tool, in data-only mode with the configured
    jobs, only after that; on the modelled file system nothing exists at the
    path in the world in which the dump tool is started. *)
Theorem C7_dump_starts_without_directory :
  (forall W (env : Env W) p w, guarded_dump p (Part000.dumpData env p w)) /\
  (forall tools p w w' c e,
     (w', EvRun c e) ∈ trace (Part000.dumpData (model tools) p w) ->
     c = dataDumpCmd p /\ files w' !! p = None).
Proof.
  split; [intros; apply dumpData_guarded|].
  intros tools p w w' c e Hin. split.
  - pose proof (dumpData_guarded (model tools) p w) as Hg.
    unfold guarded_dump in Hg.
    assert (EvRun c e ∈ outside_calls (events (Part000.dumpData (model tools) p w))) as Hout.
    { unfold events. revert Hin. generalize (trace (Part000.dumpData (model tools) p w)).
      intros t. induction t as [|[wx x] t IH]; intros Hin.
      - apply elem_of_nil in Hin. destruct Hin.
      - apply elem_of_cons in Hin as [Heq | Hin].
        + injection Heq as <- <-. simpl. apply list_elem_of_here.
        + specialize (IH Hin). simpl.
          destruct x; try exact IH; now apply list_elem_of_further. }
    destruct (outside_calls _) as [|[] [|[] [|[] [|]]]]; try contradiction;
      try match type of Hg with match ?x with _ => _ end => destruct x end;
      try contradiction.
    all: in_list Hout.
    all: injection Hout as -> ->; tauto.
  - apply dumpData_run_world in Hin. simpl env_Stat in Hin. simpl env_RemoveAll in Hin.
    unfold fs_Stat in Hin.
    destruct (is_denied OpStat p w); [|destruct (files w !! p) eqn:Hp].
    + destruct Hin as [[Hn _] | [_ Hrm]]; [discriminate|].
      unfold fs_RemoveAll in Hrm.
      destruct (files w !! p); [destruct (is_denied OpRemove p w); [discriminate|]|];
        injection Hrm as <-; apply remove_tree_gone, outside_self.
    + destruct Hin as [[Hn _] | [_ Hrm]]; [discriminate|].
      unfold fs_RemoveAll in Hrm. rewrite Hp in Hrm.
      destruct (is_denied OpRemove p w); [discriminate|].
      injection Hrm as <-. apply remove_tree_gone, outside_self.
    + destruct Hin as [[_ ->] | [Hn _]]; [exact Hp | discriminate].
Qed.

(** * The cleanup script *)

Lemma strip_prefix_app (p s : string) : strip_prefix p (p +:+ s) = Some s.
Proof.
  induction p as [|c p IH]; simpl; [reflexivity|].
  now rewrite Ascii.eqb_refl.
Qed.

Lemma strip_suffix_app (suf b : string) : strip_suffix suf (b +:+ suf) = Some b.
Proof.
  induction b as [|c b IH].
  - destruct suf; simpl; [reflexivity|]. now rewrite Ascii.eqb_refl, String.eqb_refl.
  - change (String c b +:+ suf) with (String c (b +:+ suf)).
    cbn [strip_suffix]. rewrite IH.
    destruct (String.eqb (String c (b +:+ suf)) suf) eqn:E; [|reflexivity].
    apply String.eqb_eq in E. apply (f_equal String.length) in E.
    simpl in E. rewrite string_length_append in E. lia.
Qed.

Lemma pgobj_eqb_eq (a b : pgobj) : pgobj_eqb a b = true <-> a = b.
Proof.
  destruct a as [ka sa na], b as [kb sb nb]. unfold pgobj_eqb. simpl. split.
  - intros H. apply andb_prop in H as [H Hn]. apply andb_prop in H as [Hk Hs].
    apply String.eqb_eq in Hn, Hs. subst. destruct ka, kb; try discriminate; reflexivity.
  - intros [= -> -> ->]. rewrite !String.eqb_refl. now destruct kb.
Qed.

Lemma has_obj_in (o : pgobj) (l : list pgobj) : has_obj o l = true <-> o ∈ l.
Proof.
  unfold has_obj. rewrite existsb_exists. split.
  - intros (x & Hin & Heq). apply pgobj_eqb_eq in Heq as ->. now apply list_elem_of_In.
  - intros Hin. exists o. split; [now apply list_elem_of_In | now apply pgobj_eqb_eq].
Qed.

(** The text of a drop statement with a name that is read as written is
    read back as the drop of the public object it names. *)
Lemma run_statement_drop_table (n : string) (s : session) :
  plain_ident n = true ->
  run_statement (drop_text "TABLE" n) s = drop_public Table (drop_text "TABLE" n) n s.
Proof.
  intros Hn. unfold run_statement, parse_drop.
  change (drop_text "TABLE" n)
    with ("DROP TABLE IF EXISTS public." +:+ (n +:+ " CASCADE;")).
  change ("DROP " +:+ "TABLE" +:+ " IF EXISTS public.") with "DROP TABLE IF EXISTS public.".
  rewrite strip_prefix_app, strip_suffix_app, Hn. reflexivity.
Qed.

Lemma run_statement_drop_sequence (n : string) (s : session) :
  plain_ident n = true ->
  run_statement (drop_text "SEQUENCE" n) s =
    drop_public Sequence (drop_text "SEQUENCE" n) n s.
Proof.
  intros Hn. unfold run_statement, parse_drop.
  change (drop_text "SEQUENCE" n)
    with ("DROP SEQUENCE IF EXISTS public." +:+ (n +:+ " CASCADE;")).
  change ("DROP " +:+ "SEQUENCE" +:+ " IF EXISTS public.")
    with "DROP SEQUENCE IF EXISTS public.".
  rewrite strip_prefix_app, strip_suffix_app, Hn. reflexivity.
Qed.

Lemma run_statement_drop_type (n : string) (s : session) :
  plain_ident n = true ->
  run_statement (drop_text "TYPE" n) s = drop_public EnumType (drop_text "TYPE" n) n s.
Proof.
  intros Hn. unfold run_statement, parse_drop.
  change (drop_text "TYPE" n)
    with ("DROP TYPE IF EXISTS public." +:+ (n +:+ " CASCADE;")).
  change ("DROP " +:+ "TYPE" +:+ " IF EXISTS public.") with "DROP TYPE IF EXISTS public.".
  rewrite strip_prefix_app, strip_suffix_app, Hn. reflexivity.
Qed.

Lemma run_statement_drop (k : objkind) (n : string) (s : session) :
  plain_ident n = true ->
  run_statement (drop_text (keyword k) n) s =
    drop_public k (drop_text (keyword k) n) n s.
Proof.
  destruct k; [apply run_statement_drop_table | apply run_statement_drop_sequence
              | apply run_statement_drop_type].
Qed.

(** The text built from any other name is left to the server. *)
Lemma run_statement_not_read (k : objkind) (n : string) (s : session) :
  plain_ident n = false ->
  run_statement (drop_text (keyword k) n) s = unread (drop_text (keyword k) n) s.
Proof.
  intros Hn. unfold run_statement, parse_drop. destruct k; cbn [keyword].
  - change (drop_text "TABLE" n)
      with ("DROP TABLE IF EXISTS public." +:+ (n +:+ " CASCADE;")).
    change ("DROP " +:+ "TABLE" +:+ " IF EXISTS public.") with "DROP TABLE IF EXISTS public.".
    rewrite strip_prefix_app, strip_suffix_app, Hn. reflexivity.
  - change (drop_text "SEQUENCE" n)
      with ("DROP SEQUENCE IF EXISTS public." +:+ (n +:+ " CASCADE;")).
    change ("DROP " +:+ "SEQUENCE" +:+ " IF EXISTS public.")
      with "DROP SEQUENCE IF EXISTS public.".
    rewrite strip_prefix_app, strip_suffix_app, Hn. reflexivity.
  - change (drop_text "TYPE" n)
      with ("DROP TYPE IF EXISTS public." +:+ (n +:+ " CASCADE;")).
    change ("DROP " +:+ "TYPE" +:+ " IF EXISTS public.") with "DROP TYPE IF EXISTS public.".
    rewrite strip_prefix_app, strip_suffix_app, Hn. reflexivity.
Qed.

Lemma cascade_incl (rounds : nat) dep (set : list pgobj) (x : pgobj) :
  x ∈ set -> x ∈ cascade rounds dep set.
Proof.
  revert set. induction rounds as [|n IH]; intros set H; simpl; [exact H|].
  apply IH. apply elem_of_app. now left.
Qed.

Lemma cascade_public (rounds : nat) (dep : list (pgobj * pgobj)) (set : list pgobj) :
  (forall x y, (x, y) ∈ dep -> in_public y = true -> in_public x = true) ->
  (forall x, x ∈ set -> in_public x = true) ->
  forall x, x ∈ cascade rounds dep set -> in_public x = true.
Proof.
  intros Hdep. revert set. induction rounds as [|n IH]; intros set Hset x Hx; simpl in Hx.
  - now apply Hset.
  - apply (IH (set ++ dependents_of dep set)); [|exact Hx].
    intros z Hz. apply elem_of_app in Hz as [Hz | Hz]; [now apply Hset|].
    unfold dependents_of in Hz. apply list_elem_of_In, in_map_iff in Hz as ([a b] & <- & Hin).
    apply filter_In in Hin as [Hin Hb]. simpl in *.
    apply (Hdep a b); [now apply list_elem_of_In|].
    apply has_obj_in in Hb. now apply Hset.
Qed.

Lemma remove_objs_in (gone l : list pgobj) (x : pgobj) :
  x ∈ remove_objs gone l <-> x ∈ l /\ x ∉ gone.
Proof.
  unfold remove_objs. split.
  - intros H. apply list_elem_of_In, filter_In in H as [H1 H2].
    split; [now apply list_elem_of_In|].
    intros Hg. apply has_obj_in in Hg. rewrite Hg in H2. discriminate.
  - intros [H1 H2]. apply list_elem_of_In, filter_In.
    split; [now apply list_elem_of_In|]. apply negb_true_iff.
    destruct (has_obj x gone) eqn:E; [|reflexivity].
    apply has_obj_in in E. contradiction.
Qed.

Lemma remove_public_frame (gone l : list pgobj) :
  (forall x, x ∈ gone -> in_public x = true) ->
  List.filter (fun o => negb (in_public o)) (remove_objs gone l) =
  List.filter (fun o => negb (in_public o)) l.
Proof.
  intros Hg. induction l as [|x l IH]; [reflexivity|].
  unfold remove_objs in *. simpl.
  destruct (has_obj x gone) eqn:E; simpl.
  - apply has_obj_in, Hg in E. rewrite E. simpl. exact IH.
  - destruct (in_public x); simpl; [exact IH | now rewrite IH].
Qed.

Lemma shrunk_refl (s : session) : shrunk s s.
Proof. repeat split; auto. Qed.

Lemma shrunk_trans (s1 s2 s3 : session) : shrunk s1 s2 -> shrunk s2 s3 -> shrunk s1 s3.
Proof.
  intros (Hr & Hd & Hh & Hin & Hf) (Hr' & Hd' & Hh' & Hin' & Hf').
  repeat split; try congruence; [auto|].
  intros Hn. rewrite Hf', Hf; [reflexivity | exact Hn |].
  unfold no_cross_dependency in *. now rewrite Hd.
Qed.

Lemma drop_object_spec (k : objkind) (n : string) (s s' : session) :
  drop_object k "public" n s = Some s' ->
  shrunk s s' /\ executed s' = executed s /\ mkObj k "public" n ∉ objects (sdb s').
Proof.
  unfold drop_object. cbv zeta.
  destruct (has_obj _ (objects (sdb s))) eqn:Hin.
  - destruct (has_obj _ (held (sdb s))); [discriminate|]. intros [= <-]. simpl.
    split; [|split; [reflexivity|]].
    + repeat split; simpl.
      * intros x Hx. now apply remove_objs_in in Hx as [Hx _].
      * intros Hn. unfold other_schemas. simpl. apply remove_public_frame.
        apply cascade_public; [exact Hn|].
        intros x Hx. apply list_elem_of_singleton in Hx as ->. reflexivity.
    + intros Hx. apply remove_objs_in in Hx as [_ Hx]. apply Hx.
      apply cascade_incl, list_elem_of_here.
  - intros [= <-]. split; [apply shrunk_refl|]. split; [reflexivity|].
    intros Hx. apply has_obj_in in Hx. congruence.
Qed.

Lemma for_rows_ext (f g : string -> session -> option session) (rows : list string)
    (s : session) :
  (forall v s0, f v s0 = g v s0) -> for_rows f rows s = for_rows g rows s.
Proof.
  intros H. revert s. induction rows as [|v rows IH]; intros s; simpl; [reflexivity|].
  rewrite H. destruct (g v s); [apply IH | reflexivity].
Qed.

(** A drop with a name read as written, when it succeeds.  The drop of a
    type is read when no sequence has the name. *)
Lemma drop_public_spec (k : objkind) (sql n : string) (s s' : session) :
  (k = EnumType -> mkObj Sequence "public" n ∉ objects (sdb s)) ->
  drop_public k sql n s = Some s' ->
  shrunk s s' /\ executed s' = executed s /\ mkObj k "public" n ∉ objects (sdb s').
Proof.
  intros Hseq. unfold drop_public.
  destruct (has_obj (mkObj k "public" n) (objects (sdb s))) eqn:Hin;
    [apply drop_object_spec|].
  assert (Some s = Some s' ->
          shrunk s s' /\ executed s' = executed s /\ mkObj k "public" n ∉ objects (sdb s'))
    as Hskip.
  { intros [= <-]. split; [apply shrunk_refl|]. split; [reflexivity|].
    intros Hx. apply has_obj_in in Hx. congruence. }
  unfold when_missing. destruct k.
  - destruct (has_obj (mkObj Sequence "public" n) _); [discriminate | exact Hskip].
  - destruct (has_obj (mkObj Table "public" n) _); [discriminate | exact Hskip].
  - destruct (has_obj (mkObj Table "public" n) _); [discriminate|].
    destruct (has_obj (mkObj Sequence "public" n) _) eqn:Hs; [|exact Hskip].
    apply has_obj_in in Hs. now destruct (Hseq eq_refl).
Qed.

(** A drop loop over the names [rows], each of whose statements, when it
    succeeds, is the drop of the object it names. *)
Lemma for_rows_drops (kw : string) (k : objkind) (rows : list string) (s s' : session) :
  (forall n s0 s1, n ∈ rows -> shrunk s s0 ->
     run_statement (drop_text kw n) s0 = Some s1 ->
     shrunk s0 s1 /\ executed s1 = executed s0 /\ mkObj k "public" n ∉ objects (sdb s1)) ->
  for_rows (fun v => exec_sql (drop_text kw v)) rows s = Some s' ->
  shrunk s s' /\
  executed s' = executed s ++ map (drop_text kw) rows /\
  (forall n, n ∈ rows -> mkObj k "public" n ∉ objects (sdb s')).
Proof.
  revert s. induction rows as [|v rows IH]; intros s Hstep H; simpl in H.
  - injection H as <-. split; [apply shrunk_refl|]. split.
    + simpl. now rewrite app_nil_r.
    + intros n Hn. apply elem_of_nil in Hn. destruct Hn.
  - unfold exec_sql in H.
    destruct (run_statement (drop_text kw v) s) as [s1|] eqn:Hd; [|discriminate].
    apply (Hstep v s s1 (list_elem_of_here _ _) (shrunk_refl s)) in Hd
      as (Hs1 & He1 & Hgone1).
    assert (shrunk s1 {| sdb := sdb s1; role := role s1;
                         executed := executed s1 ++ [drop_text kw v] |}) as Hmid
      by (repeat split; auto).
    apply IH in H as (Hs & He & Hgone).
    + simpl in *.
      split; [exact (shrunk_trans _ _ _ Hs1 (shrunk_trans _ _ _ Hmid Hs))|].
      split.
      * rewrite He, He1, <- app_assoc. reflexivity.
      * intros n Hn. apply elem_of_cons in Hn as [-> | Hn]; [|now apply Hgone].
        intros Hx. destruct Hs as (_ & _ & _ & Hin & _). apply Hin in Hx.
        simpl in Hx. contradiction.
    + intros n s0 s2 Hn Hs0. apply Hstep; [now apply list_elem_of_further|].
      exact (shrunk_trans _ _ _ Hs1 (shrunk_trans _ _ _ Hmid Hs0)).
Qed.

Lemma exec_drop_loop (kw col rel : string) (conds : list sqlcond) (s : session) :
  exec_stmt [] (drop_loop kw col rel conds) s =
  for_rows (fun v => exec_sql (drop_text kw v))
    (eval_query (mkQuery col rel conds) (objects (sdb s))) s.
Proof.
  unfold drop_loop. cbn [exec_stmt q_col]. apply for_rows_ext. intros v s0.
  cbn [eval_expr lookup_rec].
  change (String.eqb "r" "r") with true. cbv iota.
  change (field col [(col, v)]) with (if String.eqb col col then Some v else None).
  rewrite String.eqb_refl.
  unfold drop_text. destruct (exec_sql _ s0); reflexivity.
Qed.

Lemma exec_set_role_replica (s : session) :
  exec_stmt [] (set_role_stmt "replica") s =
  Some {| sdb := sdb s; role := Replica; executed := executed s ++ [set_replica] |}.
Proof. reflexivity. Qed.

Lemma exec_set_role_origin (s : session) :
  exec_stmt [] (set_role_stmt "origin") s =
  Some {| sdb := sdb s; role := Origin; executed := executed s ++ [set_origin] |}.
Proof. reflexivity. Qed.

Lemma selects_tables : selects Table q_tables.
Proof.
  intros [[] sch nm]; unfold in_public; cbn;
    destruct (String.eqb sch "public"); reflexivity.
Qed.

Lemma selects_sequences : selects Sequence q_sequences.
Proof.
  intros [[] sch nm]; unfold in_public; cbn;
    destruct (String.eqb sch "public"); reflexivity.
Qed.

Lemma selects_enums : selects EnumType q_enums.
Proof.
  intros [[] sch nm]; unfold in_public; cbn;
    destruct (String.eqb sch "public"); reflexivity.
Qed.

Lemma eval_query_in (k : objkind) (q : sqlquery) (objs : list pgobj) (n : string) :
  selects k q -> (n ∈ eval_query q objs <-> mkObj k "public" n ∈ objs).
Proof.
  intros Hq. induction objs as [|o objs IH]; simpl.
  - split; intros H; apply elem_of_nil in H; destruct H.
  - rewrite Hq. destruct o as [ko sch nm]. unfold in_public. simpl.
    destruct (objkind_eqb ko k && String.eqb sch "public") eqn:E.
    + apply andb_prop in E as [Ek Es]. apply String.eqb_eq in Es as ->.
      assert (ko = k) as -> by (destruct ko, k; try discriminate; reflexivity).
      rewrite !elem_of_cons, IH. split; (intros [H|H]; [left | now right]); congruence.
    + rewrite elem_of_cons, IH. split; [now right|].
      intros [Heq | H]; [|exact H].
      injection Heq as Hk Hs Hn. subst ko sch.
      rewrite String.eqb_refl in E. now destruct k.
Qed.

Lemma eval_query_empty (k : objkind) (q : sqlquery) (objs : list pgobj) :
  selects k q -> (forall o, o ∈ objs -> in_public o = false) -> eval_query q objs = [].
Proof.
  intros Hq. induction objs as [|o objs IH]; intros H; [reflexivity|]. simpl.
  rewrite Hq, (H o) by apply list_elem_of_here. rewrite andb_false_r.
  apply IH. intros x Hx. apply H. now apply list_elem_of_further.
Qed.

Lemma parse_do_MainGo : parse_do MainGo.cleanSQL = Some MainGo.cleanBlock.
Proof. vm_compute. reflexivity. Qed.

Lemma parse_do_Part000 : parse_do Part000.cleanSQL = Some Part000.cleanBlock.
Proof. vm_compute. reflexivity. Qed.

(** The run of each block, statement by statement. *)
Lemma exec_do_MainGo (s s' : session) :
  exec_do MainGo.cleanBlock s = Some s' ->
  exists s1,
    for_rows (fun v => exec_sql (drop_text "TABLE" v))
      (eval_query q_tables (objects (sdb s)))
      {| sdb := sdb s; role := Replica; executed := executed s ++ [set_replica] |} = Some s1 /\
    s' = {| sdb := sdb s1; role := Origin; executed := executed s1 ++ [set_origin] |}.
Proof.
  unfold exec_do, MainGo.cleanBlock. cbn [do_body exec_stmts].
  rewrite exec_set_role_replica, exec_drop_loop. cbn [sdb].
  fold q_tables.
  destruct (for_rows _ _ _) as [s1|]; [|discriminate].
  rewrite exec_set_role_origin. intros [= <-]. now exists s1.
Qed.

Lemma exec_do_Part000 (s s' : session) :
  exec_do Part000.cleanBlock s = Some s' ->
  exists s1 s2 s3,
    for_rows (fun v => exec_sql (drop_text "TABLE" v))
      (eval_query q_tables (objects (sdb s)))
      {| sdb := sdb s; role := Replica; executed := executed s ++ [set_replica] |} = Some s1 /\
    for_rows (fun v => exec_sql (drop_text "SEQUENCE" v))
      (eval_query q_sequences (objects (sdb s1))) s1 = Some s2 /\
    for_rows (fun v => exec_sql (drop_text "TYPE" v))
      (eval_query q_enums (objects (sdb s2))) s2 = Some s3 /\
    s' = {| sdb := sdb s3; role := Origin; executed := executed s3 ++ [set_origin] |}.
Proof.
  unfold exec_do, Part000.cleanBlock. cbn [do_body exec_stmts exec_stmt].
  rewrite exec_set_role_replica. cbn [exec_stmts exec_stmt].
  rewrite exec_drop_loop. cbn [sdb]. fold q_tables.
  destruct (for_rows _ _ _) as [s1|] eqn:E1; [|discriminate].
  cbn [exec_stmts exec_stmt].
  rewrite exec_drop_loop. fold q_sequences.
  destruct (for_rows _ _ s1) as [s2|] eqn:E2; [|discriminate].
  cbn [exec_stmts exec_stmt].
  rewrite exec_drop_loop. fold q_enums.
  destruct (for_rows _ _ s2) as [s3|] eqn:E3; [|discriminate].
  cbn [exec_stmts exec_stmt].
  rewrite exec_set_role_origin. intros [= <-]. now exists s1, s2, s3.
Qed.

Lemma kind_in_elem (k : objkind) (kinds : list objkind) :
  kind_in k kinds = true <-> k ∈ kinds.
Proof.
  unfold kind_in. rewrite existsb_exists. split.
  - intros (x & Hin & Hx). apply list_elem_of_In.
    now replace k with x by (destruct k, x; try discriminate; reflexivity).
  - intros Hin. exists k. split; [now apply list_elem_of_In | now destruct k].
Qed.

Lemma plain_names_in (kinds : list objkind) (db : database) (o : pgobj) :
  plain_names kinds db = true -> o ∈ objects db -> in_public o = true ->
  okind o ∈ kinds -> plain_ident (oname o) = true.
Proof.
  unfold plain_names. intros H Hin Hp Hk. rewrite forallb_forall in H.
  apply list_elem_of_In, H in Hin. apply kind_in_elem in Hk.
  now rewrite Hp, Hk in Hin.
Qed.

(** One drop loop, from the session in which it starts, when the names it
    reads from the catalog are read as written. *)
Lemma drop_loop_spec (k : objkind) (q : sqlquery) (s s1 : session) :
  selects k q ->
  (forall n, mkObj k "public" n ∈ objects (sdb s) -> plain_ident n = true) ->
  (k = EnumType ->
   forall o, o ∈ objects (sdb s) -> in_public o = true -> okind o <> Sequence) ->
  for_rows (fun v => exec_sql (drop_text (keyword k) v))
    (eval_query q (objects (sdb s))) s = Some s1 ->
  shrunk s s1 /\
  executed s1 = executed s ++ map (drop_text (keyword k)) (eval_query q (objects (sdb s))) /\
  (forall o, o ∈ objects (sdb s1) -> in_public o = true -> okind o <> k) /\
  (forall n, n ∈ eval_query q (objects (sdb s)) -> mkObj k "public" n ∈ objects (sdb s)).
Proof.
  intros Hq Hplain Hseq H.
  apply (for_rows_drops _ k) in H as (Hs & He & Hgone).
  - split; [exact Hs|]. split; [exact He|]. split.
    + intros [ko sch nm] Hin Hpub Hk. unfold in_public in Hpub. simpl in *.
      apply String.eqb_eq in Hpub. subst ko sch.
      apply (Hgone nm); [|exact Hin].
      apply (eval_query_in k q _ nm Hq).
      destruct Hs as (_ & _ & _ & Hsub & _). now apply Hsub.
    + intros n Hn. now apply (eval_query_in k q _ n Hq).
  - intros n s0 s2 Hn Hs0 Hrun.
    apply (eval_query_in k q _ n Hq) in Hn.
    rewrite (run_statement_drop k n s0 (Hplain n Hn)) in Hrun.
    apply drop_public_spec in Hrun; [exact Hrun|].
    intros -> Hx. destruct Hs0 as (_ & _ & _ & Hsub & _). apply Hsub in Hx.
    now apply (Hseq eq_refl _ Hx).
Qed.

Lemma shrunk_in (s s' : session) (o : pgobj) :
  shrunk s s' -> o ∈ objects (sdb s') -> o ∈ objects (sdb s).
Proof. intros (_ & _ & _ & H & _). apply H. Qed.

Lemma public_table_enumerated (objs : list pgobj) (o : pgobj) :
  o ∈ objs -> okind o = Table -> in_public o = true ->
  drop_text (keyword Table) (oname o) ∈
    map (drop_text (keyword Table)) (eval_query q_tables objs).
Proof.
  intros Hin Hk Hp. apply list_elem_of_In, in_map, list_elem_of_In.
  apply (eval_query_in Table q_tables objs (oname o) selects_tables).
  destruct o as [k sch nm]. unfold in_public in Hp. simpl in *.
  apply String.eqb_eq in Hp. now subst.
Qed.

Lemma cleans_MainGo : cleans_between_toggles [Table] MainGo.cleanSQL.
Proof.
  intros s s' Hplain H. unfold run_text in H. rewrite parse_do_MainGo in H.
  apply exec_do_MainGo in H as (s1 & H1 & ->).
  apply (drop_loop_spec Table q_tables
           {| sdb := sdb s; role := Replica; executed := executed s ++ [set_replica] |}
           s1 selects_tables) in H1 as (Hs & He & Hleft & _).
  - cbn [sdb role executed objects] in *.
    split; [reflexivity|]. split.
    + exists (map (drop_text (keyword Table)) (eval_query q_tables (objects (sdb s)))).
      split; [rewrite He, <- !app_assoc; reflexivity|]. split.
      * intros d Hd. apply list_elem_of_In, in_map_iff in Hd as (n & <- & _).
        exists Table, n. split; [apply list_elem_of_here | reflexivity].
      * intros o Hin Hk Hp. now apply public_table_enumerated.
    + intros o Hin Hpub Hk. apply list_elem_of_singleton in Hk.
      now apply (Hleft o Hin Hpub).
  - intros n Hn. apply (plain_names_in [Table] _ _ Hplain Hn eq_refl).
    apply list_elem_of_here.
  - discriminate.
Qed.

(** The three loops of [src/unnamed/part_000], from the session in which
    the first starts. *)
Lemma three_loops (s s1 s2 s3 : session) :
  plain_names [Table; Sequence; EnumType] (sdb s) = true ->
  for_rows (fun v => exec_sql (drop_text "TABLE" v))
    (eval_query q_tables (objects (sdb s))) s = Some s1 ->
  for_rows (fun v => exec_sql (drop_text "SEQUENCE" v))
    (eval_query q_sequences (objects (sdb s1))) s1 = Some s2 ->
  for_rows (fun v => exec_sql (drop_text "TYPE" v))
    (eval_query q_enums (objects (sdb s2))) s2 = Some s3 ->
  (shrunk s s1 /\ shrunk s1 s2 /\ shrunk s2 s3) /\
  executed s3 = executed s ++
    map (drop_text (keyword Table)) (eval_query q_tables (objects (sdb s))) ++
    map (drop_text (keyword Sequence)) (eval_query q_sequences (objects (sdb s1))) ++
    map (drop_text (keyword EnumType)) (eval_query q_enums (objects (sdb s2))) /\
  (forall o, o ∈ objects (sdb s3) -> in_public o = false) /\
  (forall n, n ∈ eval_query q_tables (objects (sdb s)) ->
     mkObj Table "public" n ∈ objects (sdb s)) /\
  (forall n, n ∈ eval_query q_sequences (objects (sdb s1)) ->
     mkObj Sequence "public" n ∈ objects (sdb s)) /\
  (forall n, n ∈ eval_query q_enums (objects (sdb s2)) ->
     mkObj EnumType "public" n ∈ objects (sdb s)).
Proof.
  intros Hplain H1 H2 H3.
  apply (drop_loop_spec Table q_tables s s1 selects_tables) in H1
    as (Hs1 & He1 & Hleft1 & Hn1).
  2: { intros n Hn. apply (plain_names_in _ _ _ Hplain Hn eq_refl).
       apply list_elem_of_here. }
  2: discriminate.
  apply (drop_loop_spec Sequence q_sequences s1 s2 selects_sequences) in H2
    as (Hs2 & He2 & Hleft2 & Hn2).
  2: { intros n Hn. apply (shrunk_in _ _ _ Hs1) in Hn.
       apply (plain_names_in _ _ _ Hplain Hn eq_refl).
       apply list_elem_of_further, list_elem_of_here. }
  2: discriminate.
  apply (drop_loop_spec EnumType q_enums s2 s3 selects_enums) in H3
    as (Hs3 & He3 & Hleft3 & Hn3).
  2: { intros n Hn. apply (shrunk_in _ _ _ Hs2), (shrunk_in _ _ _ Hs1) in Hn.
       apply (plain_names_in _ _ _ Hplain Hn eq_refl).
       apply list_elem_of_further, list_elem_of_further, list_elem_of_here. }
  2: { intros _. exact Hleft2. }
  split; [split; [exact Hs1 | split; [exact Hs2 | exact Hs3]]|].
  split; [rewrite He3, He2, He1, <- !app_assoc; reflexivity|].
  split.
  { intros o Hin. destruct (in_public o) eqn:Hpub; [exfalso | reflexivity].
    pose proof (shrunk_in _ _ _ Hs3 Hin) as Hin2.
    pose proof (shrunk_in _ _ _ Hs2 Hin2) as Hin1.
    destruct (okind o) eqn:Eo.
    - now apply (Hleft1 o Hin1 Hpub).
    - now apply (Hleft2 o Hin2 Hpub).
    - now apply (Hleft3 o Hin Hpub). }
  split; [exact Hn1|]. split.
  - intros n Hn. apply (shrunk_in _ _ _ Hs1). now apply Hn2.
  - intros n Hn. apply (shrunk_in _ _ _ Hs1), (shrunk_in _ _ _ Hs2). now apply Hn3.
Qed.

Lemma cleans_Part000 : cleans_between_toggles [Table; Sequence; EnumType] Part000.cleanSQL.
Proof.
  intros s s' Hplain H. unfold run_text in H. rewrite parse_do_Part000 in H.
  apply exec_do_Part000 in H as (s1 & s2 & s3 & H1 & H2 & H3 & ->).
  destruct (three_loops
              {| sdb := sdb s; role := Replica; executed := executed s ++ [set_replica] |}
              s1 s2 s3 Hplain H1 H2 H3) as (_ & He & Hleft & _).
  cbn [sdb role executed objects] in *.
  split; [reflexivity|]. split.
  - exists (map (drop_text (keyword Table)) (eval_query q_tables (objects (sdb s))) ++
            map (drop_text (keyword Sequence)) (eval_query q_sequences (objects (sdb s1))) ++
            map (drop_text (keyword EnumType)) (eval_query q_enums (objects (sdb s2)))).
    split; [rewrite He, <- !app_assoc; reflexivity|]. split.
    + intros d Hd. apply elem_of_app in Hd as [Hd | Hd];
        [|apply elem_of_app in Hd as [Hd | Hd]];
        apply list_elem_of_In, in_map_iff in Hd as (n & <- & _).
      * exists Table, n. split; [apply list_elem_of_here | reflexivity].
      * exists Sequence, n. split; [apply list_elem_of_further, list_elem_of_here | reflexivity].
      * exists EnumType, n.
        split; [apply list_elem_of_further, list_elem_of_further, list_elem_of_here | reflexivity].
    + intros o Hin Hk Hp. apply elem_of_app. left. now apply public_table_enumerated.
  - intros o Hin Hpub _. rewrite (Hleft o Hin) in Hpub. discriminate.
Qed.

(** The step in Go, in any environment. *)
Lemma cleanDestinationDB_run {W} (env : Env W) (dst text : string) (w : W) :
  let r := cleanDestinationDB_with env dst text w in
  runs (events r) = [(cleanCmd dst text, fst (env_Run env (cleanCmd dst text) w))] /\
  out r = Done (fst (env_Run env (cleanCmd dst text) w)) /\
  final r = snd (env_Run env (cleanCmd dst text) w).
Proof.
  cbv zeta. unfold events.
  destruct (cleanDestinationDB_with env dst text w) as [o wf t] eqn:E. revert E.
  unfold_program. repeat (answer; cbv beta iota zeta).
  all: intros [= <- <- <-]; repeat split; reflexivity.
Qed.

(** C3, as the code has it: in both files the cleanup step runs one command,
    psql with the whole script, and returns its result; the script is one DO
    block.  On a destination whose public names are read as written, a run
    of the script to its end executes the SET that disables enforcement,
    then only drops by name of objects of the public schema (its tables in
    [src/main.go]; its tables, sequences and enum types in
    [src/unnamed/part_000]), one for every table the schema had, then the
    SET that enables enforcement: the session ends with enforcement enabled
    and with none of those objects left in the public schema. *)
Theorem C3_cleanup_single_script :
  (forall W (env : Env W) w,
     single_script MainGo.destinationDB MainGo.cleanSQL (MainGo.cleanDestinationDB env w) /\
     single_script Part000.destinationDB Part000.cleanSQL (Part000.cleanDestinationDB env w)) /\
  MainGo.cleanSQL = render_do MainGo.cleanBlock /\
  Part000.cleanSQL = render_do Part000.cleanBlock /\
  cleans_between_toggles [Table] MainGo.cleanSQL /\
  cleans_between_toggles [Table; Sequence; EnumType] Part000.cleanSQL.
Proof.
  split.
  { intros W env w. split.
    - destruct (cleanDestinationDB_run env MainGo.destinationDB MainGo.cleanSQL w)
        as (Hruns & Hout & _). eexists. split; [exact Hruns | exact Hout].
    - destruct (cleanDestinationDB_run env Part000.destinationDB Part000.cleanSQL w)
        as (Hruns & Hout & _). eexists. split; [exact Hruns | exact Hout]. }
  split; [symmetry; apply MainGo_cleanSQL_render|].
  split; [symmetry; apply Part000_cleanSQL_render|].
  split; [apply cleans_MainGo | apply cleans_Part000].
Qed.

Lemma psql_c_empty_MainGo (db : database) :
  public_empty db -> psql_c MainGo.cleanSQL db = (None, db).
Proof.
  intros He. unfold psql_c, run_text. rewrite parse_do_MainGo.
  unfold exec_do, MainGo.cleanBlock. cbn [do_body exec_stmts].
  rewrite exec_set_role_replica, exec_drop_loop. cbn [sdb connect objects].
  fold q_tables. rewrite (eval_query_empty Table q_tables _ selects_tables He).
  cbn [for_rows]. rewrite exec_set_role_origin. reflexivity.
Qed.

Lemma psql_c_empty_Part000 (db : database) :
  public_empty db -> psql_c Part000.cleanSQL db = (None, db).
Proof.
  intros He. unfold psql_c, run_text. rewrite parse_do_Part000.
  unfold exec_do, Part000.cleanBlock. cbn [do_body exec_stmts exec_stmt].
  rewrite exec_set_role_replica. cbn [exec_stmts exec_stmt].
  rewrite exec_drop_loop. cbn [sdb connect objects]. fold q_tables.
  rewrite (eval_query_empty Table q_tables _ selects_tables He).
  cbn [for_rows exec_stmts exec_stmt].
  rewrite exec_drop_loop. cbn [sdb objects]. fold q_sequences.
  rewrite (eval_query_empty Sequence q_sequences _ selects_sequences He).
  cbn [for_rows exec_stmts exec_stmt].
  rewrite exec_drop_loop. cbn [sdb objects]. fold q_enums.
  rewrite (eval_query_empty EnumType q_enums _ selects_enums He).
  cbn [for_rows exec_stmts exec_stmt].
  rewrite exec_set_role_origin. reflexivity.
Qed.

(** psql with a script that leaves the database as it is leaves the world as
    it is. *)
Lemma model_psql_unchanged tools (dst text : string) (w : World) (db : database) :
  servers w !! dst = Some db ->
  psql_c text db = (None, db) ->
  env_Run (model tools) (cleanCmd dst text) w = (None, w).
Proof.
  intros Hdb Hp. cbn [env_Run model]. change (String.eqb (Path (cleanCmd dst text)) "psql")
    with true. cbv iota.
  change (Args (cleanCmd dst text)) with [dst; "-c"; text].
  unfold run_psql. change (String.eqb "-c" "-c") with true. cbv iota.
  rewrite Hdb, Hp. f_equal. destruct w as [g f d sv]. unfold with_servers. simpl in *.
  f_equal. now apply insert_id.
Qed.

Lemma twice_unchanged tools (dst text : string) (w : World) (db : database) :
  servers w !! dst = Some db ->
  psql_c text db = (None, db) ->
  twice_without_error (cleanDestinationDB_with (model tools) dst text) w.
Proof.
  intros Hdb Hp. unfold twice_without_error. cbv zeta.
  destruct (cleanDestinationDB_run (model tools) dst text w) as (_ & Ho1 & Hf1).
  rewrite (model_psql_unchanged tools dst text w db Hdb Hp) in Ho1, Hf1.
  simpl in Ho1, Hf1. rewrite Hf1.
  split; [exact Ho1|]. split; [exact Ho1 | exact Hf1].
Qed.

(** C5: on the modelled server, when the public schema of the destination
    holds no object, the cleanup step run twice in succession reports no
    error either time, and the second run leaves the world, the destination
    database in it, exactly as the first left it.  For the step of
    [src/main.go] and for the step of [src/unnamed/part_000]. *)
Theorem C5_cleanup_idempotent_on_empty tools (w : World) (dbA dbB : database) :
  servers w !! MainGo.destinationDB = Some dbA -> public_empty dbA ->
  servers w !! Part000.destinationDB = Some dbB -> public_empty dbB ->
  twice_without_error (MainGo.cleanDestinationDB (model tools)) w /\
  twice_without_error (Part000.cleanDestinationDB (model tools)) w.
Proof.
  intros HA HeA HB HeB. split.
  - apply (twice_unchanged tools _ _ w dbA HA). now apply psql_c_empty_MainGo.
  - apply (twice_unchanged tools _ _ w dbB HB). now apply psql_c_empty_Part000.
Qed.

Lemma frame_MainGo (db : database) :
  plain_names [Table] db = true ->
  no_cross_dependency db ->
  other_schemas (snd (psql_c MainGo.cleanSQL db)) = other_schemas db.
Proof.
  intros Hplain Hn. unfold psql_c.
  destruct (run_text MainGo.cleanSQL (connect db)) as [s'|] eqn:H; [|reflexivity].
  unfold run_text in H. rewrite parse_do_MainGo in H.
  apply exec_do_MainGo in H as (s1 & H1 & ->).
  apply (drop_loop_spec Table q_tables
           {| sdb := db; role := Replica; executed := [] ++ [set_replica] |}
           s1 selects_tables) in H1 as ((_ & _ & _ & _ & Hf) & _).
  - simpl. now apply Hf.
  - intros n Hin. apply (plain_names_in [Table] _ _ Hplain Hin eq_refl).
    apply list_elem_of_here.
  - discriminate.
Qed.

Lemma frame_Part000 (db : database) :
  plain_names [Table; Sequence; EnumType] db = true ->
  no_cross_dependency db ->
  other_schemas (snd (psql_c Part000.cleanSQL db)) = other_schemas db.
Proof.
  intros Hplain Hn. unfold psql_c.
  destruct (run_text Part000.cleanSQL (connect db)) as [s'|] eqn:H; [|reflexivity].
  unfold run_text in H. rewrite parse_do_Part000 in H.
  apply exec_do_Part000 in H as (s1 & s2 & s3 & H1 & H2 & H3 & ->).
  destruct (three_loops
              {| sdb := db; role := Replica; executed := [] ++ [set_replica] |}
              s1 s2 s3 Hplain H1 H2 H3) as ((Hs1 & Hs2 & Hs3) & _).
  destruct (shrunk_trans _ _ _ Hs1 (shrunk_trans _ _ _ Hs2 Hs3)) as (_ & _ & _ & _ & Hf).
  simpl. now apply Hf.
Qed.

Lemma names_MainGo : names_public_only [Table] MainGo.cleanSQL.
Proof.
  intros s s' Hplain H. unfold run_text in H. rewrite parse_do_MainGo in H.
  apply exec_do_MainGo in H as (s1 & H1 & ->).
  apply (drop_loop_spec Table q_tables
           {| sdb := sdb s; role := Replica; executed := executed s ++ [set_replica] |}
           s1 selects_tables) in H1 as (_ & He & _ & Hn).
  2: { intros n Hin. apply (plain_names_in [Table] _ _ Hplain Hin eq_refl).
       apply list_elem_of_here. }
  2: discriminate.
  cbn [sdb executed] in *.
  exists ([set_replica] ++ map (drop_text (keyword Table))
            (eval_query q_tables (objects (sdb s))) ++ [set_origin]).
  split; [rewrite He, <- !app_assoc; reflexivity|].
  intros d Hd. apply elem_of_app in Hd as [Hd | Hd];
    [apply list_elem_of_singleton in Hd; now left|].
  apply elem_of_app in Hd as [Hd | Hd];
    [|apply list_elem_of_singleton in Hd; right; now left].
  apply list_elem_of_In, in_map_iff in Hd as (n & <- & Hin).
  right. right. exists Table, n. split; [reflexivity|].
  apply Hn. now apply list_elem_of_In.
Qed.

Lemma names_Part000 : names_public_only [Table; Sequence; EnumType] Part000.cleanSQL.
Proof.
  intros s s' Hplain H. unfold run_text in H. rewrite parse_do_Part000 in H.
  apply exec_do_Part000 in H as (s1 & s2 & s3 & H1 & H2 & H3 & ->).
  destruct (three_loops
              {| sdb := sdb s; role := Replica; executed := executed s ++ [set_replica] |}
              s1 s2 s3 Hplain H1 H2 H3) as (_ & He & _ & Hn1 & Hn2 & Hn3).
  cbn [sdb executed objects] in *.
  exists ([set_replica] ++
          map (drop_text (keyword Table)) (eval_query q_tables (objects (sdb s))) ++
          map (drop_text (keyword Sequence)) (eval_query q_sequences (objects (sdb s1))) ++
          map (drop_text (keyword EnumType)) (eval_query q_enums (objects (sdb s2))) ++
          [set_origin]).
  split; [rewrite He, <- !app_assoc; reflexivity|].
  intros d Hd. apply elem_of_app in Hd as [Hd | Hd];
    [apply list_elem_of_singleton in Hd; now left|].
  apply elem_of_app in Hd as [Hd | Hd].
  { apply list_elem_of_In, in_map_iff in Hd as (n & <- & Hin).
    right. right. exists Table, n. split; [reflexivity|].
    apply Hn1. now apply list_elem_of_In. }
  apply elem_of_app in Hd as [Hd | Hd].
  { apply list_elem_of_In, in_map_iff in Hd as (n & <- & Hin).
    right. right. exists Sequence, n. split; [reflexivity|].
    apply Hn2. now apply list_elem_of_In. }
  apply elem_of_app in Hd as [Hd | Hd];
    [|apply list_elem_of_singleton in Hd; right; now left].
  apply list_elem_of_In, in_map_iff in Hd as (n & <- & Hin).
  right. right. exists EnumType, n. split; [reflexivity|].
  apply Hn3. now apply list_elem_of_In.
Qed.

(** C8, as the code has it, on a destination whose public names are read
    as written: every statement either script executes is one of the two
    SETs or the drop, by its public-qualified name, of an object the catalog
    lists in the public schema; and when nothing outside the public schema
    depends on something inside it, the objects of the other schemas are
    after the cleanup what they were before. *)
Theorem C8_cleanup_frames_other_schemas :
  names_public_only [Table] MainGo.cleanSQL /\
  names_public_only [Table; Sequence; EnumType] Part000.cleanSQL /\
  forall db, no_cross_dependency db ->
    (plain_names [Table] db = true ->
     other_schemas (snd (psql_c MainGo.cleanSQL db)) = other_schemas db) /\
    (plain_names [Table; Sequence; EnumType] db = true ->
     other_schemas (snd (psql_c Part000.cleanSQL db)) = other_schemas db).
Proof.
  split; [apply names_MainGo|]. split; [apply names_Part000|].
  intros db Hn. split; intros Hplain; [now apply frame_MainGo | now apply frame_Part000].
Qed.

(** C8 as the claim states it fails: the table [archive.events_2023] depends
    on [public.events], and the cleanup of either file, dropping
    [public.events] with CASCADE, removes it.  Every name is read as
    written. *)
Lemma C8_counterexample :
  plain_names [Table; Sequence; EnumType] cascade_db = true /\
  other_schemas cascade_db = [archived_child] /\
  other_schemas (snd (psql_c MainGo.cleanSQL cascade_db)) = [] /\
  other_schemas (snd (psql_c Part000.cleanSQL cascade_db)) = [].
Proof. vm_compute. repeat split; reflexivity. Qed.

(** C3 as the claim states it fails: [audit.log] is a user table of
    [shop_db], whose names are all read as written; the cleanup of either
    file runs to its end without error, and the table is still there: the
    script enumerates the public schema only. *)
Lemma C3_counterexample :
  plain_names [Table; Sequence; EnumType] shop_db = true /\
  mkObj Table "audit" "log" ∈ objects shop_db /\
  fst (psql_c MainGo.cleanSQL shop_db) = None /\
  mkObj Table "audit" "log" ∈ objects (snd (psql_c MainGo.cleanSQL shop_db)) /\
  fst (psql_c Part000.cleanSQL shop_db) = None /\
  mkObj Table "audit" "log" ∈ objects (snd (psql_c Part000.cleanSQL shop_db)).
Proof.
  split; [reflexivity|].
  split; [apply (list_elem_of_lookup_2 _ 3); reflexivity|].
  split; [vm_compute; reflexivity|].
  split; [apply (list_elem_of_lookup_2 _ 1); vm_compute; reflexivity|].
  split; [vm_compute; reflexivity|].
  apply (list_elem_of_lookup_2 _ 0); vm_compute; reflexivity.
Qed.

(** * The claims at concrete inputs *)

Lemma C5_witness :
  twice_without_error (MainGo.cleanDestinationDB (model quiet_tools)) fresh_world /\
  twice_without_error (Part000.cleanDestinationDB (model quiet_tools)) fresh_world.
Proof.
  apply (C5_cleanup_idempotent_on_empty quiet_tools fresh_world logs_db logs_db).
  - vm_compute. reflexivity.
  - intros o Ho. apply list_elem_of_singleton in Ho as ->. reflexivity.
  - vm_compute. reflexivity.
  - intros o Ho. apply list_elem_of_singleton in Ho as ->. reflexivity.
Defined.

Lemma C6_witness :
  let r := resetBackupDir (model quiet_tools) "/work/backup_dir" fresh_world in
  out r = Done None /\ empty_dir "/work/backup_dir" (final r).
Proof.
  destruct (C6_reset_backup_dir quiet_tools fresh_world "/work/backup_dir") as [Ha Hb].
  assert (out (resetBackupDir (model quiet_tools) "/work/backup_dir" fresh_world) = Done None)
    as Hok.
  { destruct Ha as (e2 & _ & Hout & He); [vm_compute; reflexivity|].
    rewrite Hout, He; [reflexivity|]. split; vm_compute; reflexivity. }
  split; [exact Hok | exact (Hb Hok)].
Defined.

Lemma C7_witness :
  let w' := with_files (remove_tree "/work/backup_dir" (files stale_world)) stale_world in
  files w' !! "/work/backup_dir" = None.
Proof.
  cbv zeta.
  refine (proj2 (proj2 C7_dump_starts_without_directory quiet_tools "/work/backup_dir"
                   stale_world _ (dataDumpCmd "/work/backup_dir") None _)).
  apply (list_elem_of_lookup_2 _ 5). vm_compute. reflexivity.
Defined.

Lemma C3_witness :
  exists s', run_text Part000.cleanSQL (connect shop_db) = Some s' /\
    role s' = Origin /\
    forall o, o ∈ objects (sdb s') -> in_public o = true ->
      okind o ∉ [Table; Sequence; EnumType].
Proof.
  destruct (run_text Part000.cleanSQL (connect shop_db)) as [s'|] eqn:Hrun;
    [|vm_compute in Hrun; discriminate].
  exists s'. split; [reflexivity|].
  destruct (proj2 (proj2 (proj2 (proj2 C3_cleanup_single_script)))
              (connect shop_db) s' eq_refl Hrun) as (Hrole & _ & Hleft).
  split; [exact Hrole | exact Hleft].
Defined.

Lemma C8_witness :
  other_schemas (snd (psql_c MainGo.cleanSQL shop_db)) = other_schemas shop_db /\
  other_schemas (snd (psql_c Part000.cleanSQL shop_db)) = other_schemas shop_db.
Proof.
  destruct (proj2 (proj2 C8_cleanup_frames_other_schemas) shop_db) as [HA HB].
  { intros x y Hin _. apply list_elem_of_singleton in Hin. injection Hin as -> _.
    reflexivity. }
  split; [apply HA | apply HB]; reflexivity.
Defined.


(** All commands succeed: the nine steps are entered and [main] returns. *)
Example nine_steps_succeed :
  let r := Part000.main scripted [] in
  out r = Done tt /\ steps_run (events r) = nine_steps /\
  existsb failed_return (events r) = false.
Proof. vm_compute. repeat split; reflexivity. Qed.

(** The third command, the schema restore, fails: the run stops after the
    fifth step with the fatal line of that step and exit status 1; no data
    dump and no data restore happens. *)
Example schema_restore_fails :
  let r := MainGo.main scripted [None; None; Some (ErrOther "exit status 1")] in
  out r = Exited 1 /\
  steps_run (events r) =
    [ConnectivityCheck; DestinationCleanup; BackupDirReset; SchemaDump; SchemaRestore] /\
  last (events r) = Some (EvLog "❌ Schema restoration failed: exit status 1") /\
  existsb (returns_failure F_restoreSchema) (events r) = true /\
  existsb data_step (events r) = false.
Proof. vm_compute. repeat split; reflexivity. Qed.

(** The data restore of [src/unnamed/part_000] fails (the seventh command):
    BEGIN, pg_restore and ROLLBACK are run, and the run ends with the fatal
    line of the step. *)
Example data_restore_fails :
  let script := [None; None; None; None; None; None; Some (ErrOther "exit status 1")] in
  let r := Part000.main scripted script in
  out r = Exited 1 /\
  last (events r) =
    Some (EvLog "❌ Data restoration failed: data restore failed: exit status 1") /\
  map fst (drop 5 (runs (events r))) =
    [startTx; restoreCmd "/work/backup_dir"; rollbackTx].
Proof. vm_compute. repeat split; reflexivity. Qed.

(** No server answers at the source: the destination is never reached. *)
Example source_unreachable :
  let r := MainGo.main (model quiet_tools) fresh_world in
  out r = Exited 1 /\
  existsb (check_returns MainGo.sourceDB true) (events r) = true /\
  existsb (probes MainGo.destinationDB) (events r) = false.
Proof. vm_compute. repeat split; reflexivity. Qed.

(** The source answers, the destination does not: the run stops and nothing
    has been run, removed or made. *)
Example destination_unreachable :
  let w := with_servers {[ Part000.sourceDB := shop_db ]} fresh_world in
  let r := Part000.main (model quiet_tools) w in
  out r = Exited 1 /\
  existsb (check_returns Part000.destinationDB true) (events r) = true /\
  existsb acts (events r) = false /\
  final r = w.
Proof. vm_compute. repeat split; reflexivity. Qed.

(** The guarded dump against the stale backup directory: the directory and
    the schema dump in it are gone when pg_dump starts. *)
Example guarded_dump_removes_stale_directory :
  let r := Part000.dumpData (model quiet_tools) "/work/backup_dir" stale_world in
  outside_calls (events r) =
    [EvStat "/work/backup_dir" None; EvRemoveAll "/work/backup_dir" None;
     EvRun (dataDumpCmd "/work/backup_dir") None] /\
  map_to_list (files (final r)) = [("/work", Dir)].
Proof. vm_compute. repeat split; reflexivity. Qed.

(** The cleanup of [src/unnamed/part_000] on a populated destination. *)
Example cleanup_statements :
  option_map executed (run_text Part000.cleanSQL (connect shop_db)) =
    Some [set_replica;
          "DROP TABLE IF EXISTS public.users CASCADE;";
          "DROP TYPE IF EXISTS public.mood CASCADE;";
          set_origin] /\
  objects (snd (psql_c Part000.cleanSQL shop_db)) =
    [mkObj Table "audit" "log"; mkObj EnumType "audit" "level"].
Proof. vm_compute. repeat split; reflexivity. Qed.

(** A table whose name needs quotes: the script splices the name without
    them, the statement names another table, and on a server that does what
    PostgreSQL does the script of either file runs to its end and the table
    is still there. *)
Example mixed_case_table_survives :
  plain_names [Table] (mixed_case_db 1) = false /\
  fst (psql_c MainGo.cleanSQL (mixed_case_db 1)) = None /\
  objects (snd (psql_c MainGo.cleanSQL (mixed_case_db 1))) = [mkObj Table "public" "Users"] /\
  fst (psql_c Part000.cleanSQL (mixed_case_db 1)) = None /\
  objects (snd (psql_c Part000.cleanSQL (mixed_case_db 1))) = [mkObj Table "public" "Users"].
Proof. vm_compute. repeat split; reflexivity. Qed.

(** * More of the program *)

(** Running [main] against an arbitrary environment, for a statement in
    three parts: checks that compute, the paths, the commands. *)
Ltac keeps_cases main tail :=
  match goal with
  | |- context [main ?env ?w] =>
      let E := fresh "E" in
      destruct (main env w) as [? ? ?] eqn:E; revert E;
      unfold_program; repeat (answer; cbv beta iota zeta);
      intros [= <- <- <-]; cbv beta iota zeta;
      (split; [vm_compute; reflexivity | split; [repeat constructor | tail]])
  end.

Lemma MainGo_main_keeps {W} (env : Env W) (w : W) :
  let r := MainGo.main env w in
  let d := backup_dir env w in
  keepsb MainGo.sourceDB MainGo.destinationDB
    "✅ Database migration completed successfully!" r = true /\
  Forall (eq d) (fs_paths (events r)) /\
  commanded (commands_MainGo d) (events r).
Proof.
  cbv zeta. unfold events.
  keeps_cases (@MainGo.main W) ltac:(eexists; reflexivity).
Qed.

Lemma Part000_main_keeps {W} (env : Env W) (w : W) :
  let r := Part000.main env w in
  let d := backup_dir env w in
  keepsb Part000.sourceDB Part000.destinationDB
    "✅ Database migration completed successfully!" r = true /\
  Forall (eq d) (fs_paths (events r)) /\
  (commanded (commands_Part000 d) (events r) \/
   map fst (runs (events r)) = take 7 (commands_Part000 d) ++ [rollbackTx]).
Proof.
  cbv zeta. unfold events.
  keeps_cases (@Part000.main W)
    ltac:(first [left; eexists; reflexivity | right; reflexivity]).
Qed.

Lemma Part001_main_keeps {W} (env : Env W) (w : W) :
  let r := Part001.main env w in
  let d := backup_dir env w in
  keepsb Part001.sourceDB Part001.destinationDB
    "✅ Database data migration completed successfully!" r &&
  fail_fast_overb four_steps r && data_only_run (events r) = true /\
  Forall (eq d) (fs_paths (events r)) /\
  commanded (commands_Part001 d) (events r).
Proof.
  cbv zeta. unfold events.
  keeps_cases (@Part001.main W) ltac:(eexists; reflexivity).
Qed.

Lemma stops_at_failureb_sound (rs : list (Cmd * error)) :
  stops_at_failureb rs = true -> stops_at_failure rs.
Proof.
  induction rs as [|[c0 e0] rs IH]; intros H pre c e post Heq.
  - destruct pre; discriminate.
  - destruct pre as [|[c1 e1] pre]; simpl in Heq.
    + injection Heq as -> -> ->. simpl in H.
      destruct post as [|[c' e'] [|]]; [now left | | discriminate].
      right. exists c', e'. split; [reflexivity | exact H].
    + injection Heq as -> -> ->. destruct e1 as [g|].
      * simpl in H. destruct pre as [|[c2 e2] pre]; simpl in H.
        -- destruct post; [now left | discriminate].
        -- destruct pre; discriminate.
      * apply (IH H pre c e post eq_refl).
Qed.

Lemma ends_with_a_line_by_computation {W} (success : string) (r : run W unit) :
  ends_with_a_lineb success r = true -> ends_with_a_line success r.
Proof.
  unfold ends_with_a_lineb, ends_with_a_line. intros H.
  destruct (last (events r)) as [[]|]; try discriminate. split.
  - intros Hd. rewrite Hd in H. simpl in H. apply String.eqb_eq in H. now subst.
  - intros code Hc. rewrite Hc in H. simpl in H. apply andb_prop in H as [H1 H2].
    apply Z.eqb_eq in H1. split; [exact H1|]. eexists. split; [reflexivity | exact H2].
Qed.

Lemma keepsb_parts {W} (src dst success : string) (r : run W unit) :
  keepsb src dst success r = true ->
  (forall c e, (c, e) ∈ runs (events r) -> well_targeted src dst c = true) /\
  stops_at_failure (runs (events r)) /\
  ends_with_a_line success r.
Proof.
  unfold keepsb. intros H.
  apply andb_prop in H as [H Hend]. apply andb_prop in H as [Htgt Hstop].
  split; [|split].
  - intros c e Hin. rewrite forallb_forall in Htgt.
    apply (Htgt (c, e)). now apply list_elem_of_In.
  - now apply stops_at_failureb_sound.
  - now apply ends_with_a_line_by_computation.
Qed.


(** X1: the commands of a run, in any environment.  A run of [main] issues
    the commands of its program in the one fixed order and stops somewhere
    along it; only [src/unnamed/part_000] has a second ending, where the
    ROLLBACK follows the data restore in place of the COMMIT.  Every archive
    and output argument is the backup directory under the working
    directory. *)
Theorem X1_commands_in_order {W} (env : Env W) (w : W) :
  let d := backup_dir env w in
  commanded (commands_MainGo d) (events (MainGo.main env w)) /\
  (commanded (commands_Part000 d) (events (Part000.main env w)) \/
   map fst (runs (events (Part000.main env w))) =
     take 7 (commands_Part000 d) ++ [rollbackTx]) /\
  commanded (commands_Part001 d) (events (Part001.main env w)).
Proof.
  cbv zeta.
  destruct (MainGo_main_keeps env w) as (_ & _ & HA).
  destruct (Part000_main_keeps env w) as (_ & _ & HB).
  destruct (Part001_main_keeps env w) as (_ & _ & HC).
  split; [exact HA|]. split; [exact HB | exact HC].
Qed.

(** X2: a run never writes to the source.  Every command of a run of any of
    the three programs is pg_dump connected to the source database, or psql
    or pg_restore connected to the destination database. *)
Theorem X2_source_only_dumped {W} (env : Env W) (w : W) (c : Cmd) (e : error) :
  ((c, e) ∈ runs (events (MainGo.main env w)) ->
     well_targeted MainGo.sourceDB MainGo.destinationDB c = true) /\
  ((c, e) ∈ runs (events (Part000.main env w)) ->
     well_targeted Part000.sourceDB Part000.destinationDB c = true) /\
  ((c, e) ∈ runs (events (Part001.main env w)) ->
     well_targeted Part001.sourceDB Part001.destinationDB c = true).
Proof.
  destruct (MainGo_main_keeps env w) as (HA & _).
  destruct (Part000_main_keeps env w) as (HB & _).
  destruct (Part001_main_keeps env w) as (HC & _).
  apply andb_prop in HC as [HC _]. apply andb_prop in HC as [HC _].
  apply keepsb_parts in HA as (HA & _), HB as (HB & _), HC as (HC & _).
  split; [apply HA|]. split; [apply HB | apply HC].
Qed.

Lemma X2_witness :
  well_targeted MainGo.sourceDB MainGo.destinationDB
    (dumpSchemaCmd MainGo.sourceDB "/work/backup_dir") = true.
Proof.
  apply (proj1 (X2_source_only_dumped scripted []
                  (dumpSchemaCmd MainGo.sourceDB "/work/backup_dir") None)).
  apply (list_elem_of_lookup_2 _ 1). vm_compute. reflexivity.
Defined.

(** X3: no command follows a failed one, but for the ROLLBACK.  In a run of
    any of the three programs, a command that returns an error is the last
    command of the run, or is followed by exactly one more, psql with
    ROLLBACK. *)
Theorem X3_commands_stop_at_failure {W} (env : Env W) (w : W) :
  stops_at_failure (runs (events (MainGo.main env w))) /\
  stops_at_failure (runs (events (Part000.main env w))) /\
  stops_at_failure (runs (events (Part001.main env w))).
Proof.
  destruct (MainGo_main_keeps env w) as (HA & _).
  destruct (Part000_main_keeps env w) as (HB & _).
  destruct (Part001_main_keeps env w) as (HC & _).
  apply andb_prop in HC as [HC _]. apply andb_prop in HC as [HC _].
  apply keepsb_parts in HA as (_ & HA & _), HB as (_ & HB & _), HC as (_ & HC & _).
  split; [exact HA|]. split; [exact HB | exact HC].
Qed.

(** X4: the only path the program examines, removes or makes is the backup
    directory under the working directory, in every run of the three
    programs. *)
Theorem X4_only_the_backup_directory {W} (env : Env W) (w : W) :
  let d := backup_dir env w in
  Forall (eq d) (fs_paths (events (MainGo.main env w))) /\
  Forall (eq d) (fs_paths (events (Part000.main env w))) /\
  Forall (eq d) (fs_paths (events (Part001.main env w))).
Proof.
  cbv zeta.
  destruct (MainGo_main_keeps env w) as (_ & HA & _).
  destruct (Part000_main_keeps env w) as (_ & HB & _).
  destruct (Part001_main_keeps env w) as (_ & HC & _).
  split; [exact HA|]. split; [exact HB | exact HC].
Qed.

(** X5: how a run ends.  When [main] returns, the last thing the run did was
    to log the success line of its program; when the process exits, the
    status is 1 and the last thing the run did was to log a line that opens
    with the cross mark. *)
Theorem X5_every_run_ends_with_a_line {W} (env : Env W) (w : W) :
  ends_with_a_line "✅ Database migration completed successfully!" (MainGo.main env w) /\
  ends_with_a_line "✅ Database migration completed successfully!" (Part000.main env w) /\
  ends_with_a_line "✅ Database data migration completed successfully!" (Part001.main env w).
Proof.
  destruct (MainGo_main_keeps env w) as (HA & _).
  destruct (Part000_main_keeps env w) as (HB & _).
  destruct (Part001_main_keeps env w) as (HC & _).
  apply andb_prop in HC as [HC _]. apply andb_prop in HC as [HC _].
  apply keepsb_parts in HA as (_ & _ & HA), HB as (_ & _ & HB), HC as (_ & _ & HC).
  split; [exact HA|]. split; [exact HB | exact HC].
Qed.



(** X7: [testDBConnection] closes what it opened.  In any environment,
    either [sql.Open] fails and the function calls nothing else, or the
    handle is pinged and then closed exactly once, whether the ping
    succeeded or not; the answer of [Close] does not change the result. *)
Theorem X7_connection_is_closed {W} (env : Env W) (connStr dbType : string) (w : W) :
  opens_pings_closes connStr (testDBConnection env connStr dbType w).
Proof.
  unfold opens_pings_closes, events.
  destruct (testDBConnection env connStr dbType w) as [o wf t] eqn:E. revert E.
  unfold_program. repeat (answer; cbv beta iota zeta).
  all: intros [= <- <- <-]; cbv beta iota zeta; repeat split; reflexivity.
Qed.

(** X8: when [os.Getwd] fails, [main] of each program logs the fatal line
    with the error and exits with status 1; it has called nothing else. *)
Theorem X8_no_working_directory {W} (env : Env W) (w w' : W) (dir : string) (e : goerr) :
  env_Getwd env w = (dir, Some e, w') ->
  let line := EvLog ("❌ Unable to get current working directory: " +:+ Error e) in
  (events (MainGo.main env w) = [EvGetwd dir (Some e); line] /\
   out (MainGo.main env w) = Exited 1) /\
  (events (Part000.main env w) = [EvGetwd dir (Some e); line] /\
   out (Part000.main env w) = Exited 1) /\
  (events (Part001.main env w) = [EvGetwd dir (Some e); line] /\
   out (Part001.main env w) = Exited 1).
Proof.
  intros H. unfold events.
  split; [|split].
  - destruct (MainGo.main env w) as [o wf t] eqn:E. revert E.
    unfold_program. rewrite H. cbv beta iota zeta.
    intros [= <- <- <-]. split; reflexivity.
  - destruct (Part000.main env w) as [o wf t] eqn:E. revert E.
    unfold_program. rewrite H. cbv beta iota zeta.
    intros [= <- <- <-]. split; reflexivity.
  - destruct (Part001.main env w) as [o wf t] eqn:E. revert E.
    unfold_program. rewrite H. cbv beta iota zeta.
    intros [= <- <- <-]. split; reflexivity.
Qed.

Lemma X8_witness :
  out (MainGo.main (model quiet_tools) lost_world) = Exited 1 /\
  out (Part000.main (model quiet_tools) lost_world) = Exited 1 /\
  out (Part001.main (model quiet_tools) lost_world) = Exited 1.
Proof.
  destruct (X8_no_working_directory (model quiet_tools) lost_world lost_world EmptyString
              (ErrNotExist "getwd: no such file or directory") eq_refl)
    as ((_ & HA) & (_ & HB) & (_ & HC)).
  split; [exact HA|]. split; [exact HB | exact HC].
Defined.

(** ** The psql sessions on the modelled server *)

Lemma with_servers_same (w : World) (dst : string) (db : database) :
  servers w !! dst = Some db -> with_servers (<[dst := db]> (servers w)) w = w.
Proof.
  intros H. destruct w as [g f d sv]. unfold with_servers. simpl in *.
  f_equal. now apply insert_id.
Qed.

(** psql with a statement that changes no database. *)
Lemma model_psql_statement tools (c : Cmd) (dst sql : string) (w : World) :
  Path c = "psql" -> Args c = [dst; "-c"; sql] ->
  (forall db, psql_c sql db = (None, db)) ->
  env_Run (model tools) c w =
    match servers w !! dst with
    | Some _ => (None, w)
    | None => (Some (ErrOther "exit status 2"), w)
    end.
Proof.
  intros Hp Ha Hs. cbn [env_Run model]. rewrite Hp, Ha.
  change (String.eqb "psql" "psql") with true. cbv iota.
  unfold run_psql. change (String.eqb "-c" "-c") with true. cbv iota.
  destruct (servers w !! dst) as [db|] eqn:Hdb; [|reflexivity].
  rewrite Hs. now rewrite (with_servers_same w dst db Hdb).
Qed.

Lemma psql_c_set_replica (db : database) : psql_c set_replica db = (None, db).
Proof. vm_compute. reflexivity. Qed.

Lemma psql_c_set_origin (db : database) : psql_c set_origin db = (None, db).
Proof. vm_compute. reflexivity. Qed.

Lemma psql_c_begin (db : database) : psql_c "BEGIN;" db = (None, db).
Proof. vm_compute. reflexivity. Qed.

Lemma psql_c_commit (db : database) : psql_c "COMMIT;" db = (None, db).
Proof. vm_compute. reflexivity. Qed.

Lemma psql_c_rollback (db : database) : psql_c "ROLLBACK;" db = (None, db).
Proof. vm_compute. reflexivity. Qed.

Lemma disableConstraints_run {W} (env : Env W) (dst : string) (w : W) :
  let r := disableConstraints env dst w in
  out r = Done (fst (env_Run env (psqlCmd dst set_replica) w)) /\
  final r = snd (env_Run env (psqlCmd dst set_replica) w).
Proof.
  cbv zeta. destruct (disableConstraints env dst w) as [o wf t] eqn:E. revert E.
  unfold_program. repeat (answer; cbv beta iota zeta).
  all: intros [= <- <- <-]; split; reflexivity.
Qed.

Lemma enableConstraints_run {W} (env : Env W) (dst : string) (w : W) :
  let r := enableConstraints env dst w in
  out r = Done (fst (env_Run env (psqlCmd dst set_origin) w)) /\
  final r = snd (env_Run env (psqlCmd dst set_origin) w).
Proof.
  cbv zeta. destruct (enableConstraints env dst w) as [o wf t] eqn:E. revert E.
  unfold_program. repeat (answer; cbv beta iota zeta).
  all: intros [= <- <- <-]; split; reflexivity.
Qed.

(** X9: on the modelled server the two constraint steps change nothing.
    [disableConstraints] and [enableConstraints] each run their SET in a psql
    session of its own, which ends with the command: the world, destination
    database included, is afterwards exactly what it was, and each step
    succeeds exactly when the destination can be reached. *)
Theorem X9_constraint_steps_change_nothing tools (dst : string) (w : World) :
  let r1 := disableConstraints (model tools) dst w in
  let r2 := enableConstraints (model tools) dst w in
  final r1 = w /\ final r2 = w /\
  (out r1 = Done None <-> is_Some (servers w !! dst)) /\
  (out r2 = Done None <-> is_Some (servers w !! dst)).
Proof.
  cbv zeta.
  destruct (disableConstraints_run (model tools) dst w) as [Ho1 Hf1].
  destruct (enableConstraints_run (model tools) dst w) as [Ho2 Hf2].
  rewrite (model_psql_statement tools (psqlCmd dst set_replica) dst set_replica w
             eq_refl eq_refl psql_c_set_replica)
    in Ho1, Hf1.
  rewrite (model_psql_statement tools (psqlCmd dst set_origin) dst set_origin w
             eq_refl eq_refl psql_c_set_origin)
    in Ho2, Hf2.
  rewrite Ho1, Ho2, Hf1, Hf2.
  destruct (servers w !! dst) as [db|]; simpl; repeat split; auto;
    try (intros _; eexists; reflexivity); try discriminate;
    intros [x Hx]; discriminate.
Qed.

(** The data restore of [src/unnamed/part_000], in any environment. *)
Lemma restoreDataWithTransaction_run {W} (env : Env W) (p : string) (w : W) :
  let r := Part000.restoreDataWithTransaction env p w in
  let '(e1, w1) := env_Run env startTx w in
  match e1 with
  | Some e => out r = Done (fmt_Errorf "failed to start transaction: " e) /\ final r = w1
  | None =>
      let '(e2, w2) := env_Run env (restoreCmd p) w1 in
      match e2 with
      | Some e =>
          let '(_, w3) := env_Run env rollbackTx w2 in
          out r = Done (fmt_Errorf "data restore failed: " e) /\ final r = w3
      | None =>
          let '(e3, w3) := env_Run env commitTx w2 in
          out r = Done e3 /\ final r = w3
      end
  end.
Proof.
  cbv zeta. destruct (Part000.restoreDataWithTransaction env p w) as [o wf t] eqn:E.
  revert E. unfold_program. repeat (answer; cbv beta iota zeta).
  all: intros [= <- <- <-]; split; reflexivity.
Qed.

(** X10: on the modelled server the transaction around the data restore
    holds nothing.  When the destination can be reached before and after
    pg_restore, the step of [src/unnamed/part_000] leaves exactly the world
    pg_restore left and reports exactly its outcome: BEGIN, COMMIT and
    ROLLBACK run in sessions of their own, so a failed restore is not
    undone. *)
Theorem X10_transaction_holds_nothing tools (p : string) (w w' : World) (e : error) :
  tools (restoreCmd p) w = (e, w') ->
  is_Some (servers w !! Part000.destinationDB) ->
  is_Some (servers w' !! Part000.destinationDB) ->
  let r := Part000.restoreDataWithTransaction (model tools) p w in
  final r = w' /\
  out r = Done (match e with
                | Some g => fmt_Errorf "data restore failed: " g
                | None => None
                end).
Proof.
  intros Ht [db Hdb] [db' Hdb']. cbv zeta.
  pose proof (restoreDataWithTransaction_run (model tools) p w) as Hrun. cbv zeta in Hrun.
  rewrite (model_psql_statement tools startTx Part000.destinationDB "BEGIN;" w
             eq_refl eq_refl psql_c_begin), Hdb in Hrun.
  assert (env_Run (model tools) (restoreCmd p) w = (e, w')) as Hr by exact Ht.
  rewrite Hr in Hrun.
  rewrite (model_psql_statement tools rollbackTx Part000.destinationDB "ROLLBACK;" w'
             eq_refl eq_refl psql_c_rollback), Hdb' in Hrun.
  rewrite (model_psql_statement tools commitTx Part000.destinationDB "COMMIT;" w'
             eq_refl eq_refl psql_c_commit), Hdb' in Hrun.
  destruct e as [g|]; destruct Hrun as [Ho Hf]; split; assumption.
Qed.

Lemma X10_witness :
  let r := Part000.restoreDataWithTransaction (model quiet_tools) "/work/backup_dir"
             stale_world in
  final r = stale_world /\ out r = Done None.
Proof.
  apply (X10_transaction_holds_nothing quiet_tools "/work/backup_dir" stale_world
           stale_world None eq_refl); eexists; vm_compute; reflexivity.
Defined.

(** ** The cleanup script, further *)

Lemma eval_query_none (k : objkind) (q : sqlquery) (objs : list pgobj) :
  selects k q ->
  (forall o, o ∈ objs -> in_public o = true -> okind o <> k) ->
  eval_query q objs = [].
Proof.
  intros Hq. induction objs as [|o objs IH]; intros H; [reflexivity|]. simpl.
  rewrite Hq.
  destruct (objkind_eqb (okind o) k && in_public o) eqn:E.
  - apply andb_prop in E as [Ek Ep]. exfalso.
    apply (H o (list_elem_of_here _ _) Ep).
    destruct (okind o), k; try discriminate; reflexivity.
  - apply IH. intros x Hx. apply H. now apply list_elem_of_further.
Qed.

Lemma psql_c_no_tables_MainGo (db : database) :
  (forall o, o ∈ objects db -> in_public o = true -> okind o <> Table) ->
  psql_c MainGo.cleanSQL db = (None, db).
Proof.
  intros He. unfold psql_c, run_text. rewrite parse_do_MainGo.
  unfold exec_do, MainGo.cleanBlock. cbn [do_body exec_stmts].
  rewrite exec_set_role_replica, exec_drop_loop. cbn [sdb connect objects].
  fold q_tables. rewrite (eval_query_none Table q_tables _ selects_tables He).
  cbn [for_rows]. rewrite exec_set_role_origin. reflexivity.
Qed.

(** X12: the cleanup script is idempotent on the modelled server, from any
    state of a destination whose public names are read as written: run a
    second time on the database the first run left, the script of either
    file reports what the first run reported and leaves the database as the
    first run left it. *)
Theorem X12_cleanup_script_idempotent (db : database) :
  (plain_names [Table] db = true ->
   let '(e1, db1) := psql_c MainGo.cleanSQL db in
   psql_c MainGo.cleanSQL db1 = (e1, db1)) /\
  (plain_names [Table; Sequence; EnumType] db = true ->
   let '(e1, db1) := psql_c Part000.cleanSQL db in
   psql_c Part000.cleanSQL db1 = (e1, db1)).
Proof.
  split; intros Hplain.
  - unfold psql_c at 1.
    destruct (run_text MainGo.cleanSQL (connect db)) as [s'|] eqn:H.
    + apply psql_c_no_tables_MainGo.
      destruct (cleans_MainGo (connect db) s' Hplain H) as (_ & _ & Hleft).
      intros o Hin Hp Hk. apply (Hleft o Hin Hp). rewrite Hk. apply list_elem_of_here.
    + unfold psql_c. now rewrite H.
  - unfold psql_c at 1.
    destruct (run_text Part000.cleanSQL (connect db)) as [s'|] eqn:H.
    + apply psql_c_empty_Part000.
      destruct (cleans_Part000 (connect db) s' Hplain H) as (_ & _ & Hleft).
      intros o Hin. destruct (in_public o) eqn:Hp; [|reflexivity].
      exfalso. apply (Hleft o Hin Hp).
      destruct (okind o);
        [apply list_elem_of_here | apply list_elem_of_further, list_elem_of_here
        | apply list_elem_of_further, list_elem_of_further, list_elem_of_here].
    + unfold psql_c. now rewrite H.
Qed.

Lemma X12_witness :
  psql_c MainGo.cleanSQL (snd (psql_c MainGo.cleanSQL shop_db)) =
    (None, snd (psql_c MainGo.cleanSQL shop_db)) /\
  psql_c Part000.cleanSQL (snd (psql_c Part000.cleanSQL shop_db)) =
    (None, snd (psql_c Part000.cleanSQL shop_db)).
Proof.
  destruct (X12_cleanup_script_idempotent shop_db) as [HA HB].
  split; [exact (HA eq_refl) | exact (HB eq_refl)].
Defined.

Lemma cascade_tables (rounds : nat) (dep : list (pgobj * pgobj)) (set : list pgobj) :
  (forall x y, (x, y) ∈ dep -> is_table y = true -> is_table x = true) ->
  (forall x, x ∈ set -> is_table x = true) ->
  forall x, x ∈ cascade rounds dep set -> is_table x = true.
Proof.
  intros Hdep. revert set. induction rounds as [|n IH]; intros set Hset x Hx; simpl in Hx.
  - now apply Hset.
  - apply (IH (set ++ dependents_of dep set)); [|exact Hx].
    intros z Hz. apply elem_of_app in Hz as [Hz | Hz]; [now apply Hset|].
    unfold dependents_of in Hz. apply list_elem_of_In, in_map_iff in Hz as ([a b] & <- & Hin).
    apply filter_In in Hin as [Hin Hb]. simpl in *.
    apply (Hdep a b); [now apply list_elem_of_In|].
    apply has_obj_in in Hb. now apply Hset.
Qed.

Lemma remove_tables_frame (gone l : list pgobj) :
  (forall x, x ∈ gone -> is_table x = true) ->
  List.filter (fun o => negb (is_table o)) (remove_objs gone l) =
  List.filter (fun o => negb (is_table o)) l.
Proof.
  intros Hg. induction l as [|x l IH]; [reflexivity|].
  unfold remove_objs in *. simpl.
  destruct (has_obj x gone) eqn:E; simpl.
  - apply has_obj_in, Hg in E. rewrite E. simpl. exact IH.
  - destruct (is_table x); simpl; [exact IH | now rewrite IH].
Qed.

Lemma drop_table_keeps_non_tables (n : string) (s s' : session) :
  tables_closed (sdb s) ->
  drop_public Table (drop_text "TABLE" n) n s = Some s' ->
  non_tables (sdb s') = non_tables (sdb s) /\ depends (sdb s') = depends (sdb s).
Proof.
  intros Hc. unfold drop_public, when_missing, drop_object. cbv zeta.
  destruct (has_obj (mkObj Table "public" n) (objects (sdb s))).
  - destruct (has_obj _ (held (sdb s))); [discriminate|]. intros [= <-].
    split; [|reflexivity]. unfold non_tables. simpl.
    apply remove_tables_frame. apply cascade_tables; [exact Hc|].
    intros x Hx. apply list_elem_of_singleton in Hx as ->. reflexivity.
  - destruct (has_obj (mkObj Sequence "public" n) _); [discriminate|].
    intros [= <-]. split; reflexivity.
Qed.

Lemma table_loop_keeps_non_tables (rows : list string) (s s' : session) :
  tables_closed (sdb s) ->
  (forall n, n ∈ rows -> plain_ident n = true) ->
  for_rows (fun v => exec_sql (drop_text "TABLE" v)) rows s = Some s' ->
  non_tables (sdb s') = non_tables (sdb s).
Proof.
  revert s. induction rows as [|v rows IH]; intros s Hc Hplain H; simpl in H.
  - now injection H as <-.
  - unfold exec_sql in H.
    rewrite (run_statement_drop_table v s (Hplain v (list_elem_of_here _ _))) in H.
    destruct (drop_public Table (drop_text "TABLE" v) v s) as [s1|] eqn:Hd; [|discriminate].
    apply (drop_table_keeps_non_tables v s s1 Hc) in Hd as [Hn Hdep].
    apply IH in H.
    + simpl in H. now rewrite H.
    + unfold tables_closed in *. simpl. now rewrite Hdep.
    + intros n Hin. apply Hplain. now apply list_elem_of_further.
Qed.

(** X13: the cleanup of [src/main.go] drops tables only.  On the modelled
    server, for a destination whose public table names are read as written
    and where only tables depend on tables, the sequences and the enum types
    of the destination, those of the public schema included, are after the
    cleanup what they were before. *)
Theorem X13_main_go_cleanup_keeps_sequences_and_enums (db : database) :
  plain_names [Table] db = true ->
  tables_closed db ->
  non_tables (snd (psql_c MainGo.cleanSQL db)) = non_tables db.
Proof.
  intros Hplain Hc. unfold psql_c.
  destruct (run_text MainGo.cleanSQL (connect db)) as [s'|] eqn:H; [|reflexivity].
  unfold run_text in H. rewrite parse_do_MainGo in H.
  apply exec_do_MainGo in H as (s1 & H1 & ->).
  apply table_loop_keeps_non_tables in H1; [|exact Hc|].
  - simpl. exact H1.
  - intros n Hn. apply (eval_query_in Table q_tables _ n selects_tables) in Hn.
    apply (plain_names_in [Table] _ _ Hplain Hn eq_refl). apply list_elem_of_here.
Qed.

Lemma X13_witness :
  non_tables (snd (psql_c MainGo.cleanSQL plain_db)) =
    [mkObj Sequence "public" "ticket_seq"; mkObj EnumType "public" "mood"].
Proof.
  refine (eq_trans (X13_main_go_cleanup_keeps_sequences_and_enums plain_db eq_refl _)
            eq_refl).
  intros x y Hin. apply elem_of_nil in Hin. destruct Hin.
Defined.

(** ** The backup directory on the modelled file system *)

Lemma reset_files_lookup_made (p q : string) (fs : gmap string node) :
  q ∈ ancestors p ++ [p] -> reset_files p fs !! q = Some Dir.
Proof. apply make_dirs_lookup_in. Qed.

Lemma reset_files_lookup_outside (p q : string) (fs : gmap string node) :
  outside p q = true -> q ∉ ancestors p -> reset_files p fs !! q = fs !! q.
Proof.
  intros Ho Ha. unfold reset_files. rewrite make_dirs_lookup_out.
  - now apply remove_tree_kept.
  - intros Hin. apply elem_of_app in Hin as [Hin | Hin]; [now apply Ha|].
    apply list_elem_of_singleton in Hin as ->. rewrite outside_self in Ho. discriminate.
Qed.

Lemma reset_files_lookup_under (p q : string) (fs : gmap string node) :
  under p q = true -> reset_files p fs !! q = None.
Proof.
  intros Hu. unfold reset_files. rewrite make_dirs_lookup_out.
  - apply remove_tree_gone. now apply outside_under.
  - intros Hin. apply chain_not_under in Hin. congruence.
Qed.

(** The reset on the model: it succeeds exactly when the path can be removed
    and made again, and then leaves [reset_files]; when it fails, the files
    are what the removal left. *)
Lemma resetBackupDir_model tools (p : string) (w : World) :
  let r := resetBackupDir (model tools) p w in
  let removable := match files w !! p with Some _ => negb (is_denied OpRemove p w) | None => true end in
  let makeable := negb (existsb (is_file (remove_tree p (files w))) (ancestors p ++ [p])) &&
                  negb (is_denied OpMkdir p w) in
  (out r = Done None <-> removable && makeable = true) /\
  final r = (if removable
             then with_files (if makeable then reset_files p (files w)
                              else remove_tree p (files w)) w
             else w).
Proof.
  pose proof (resetBackupDir_run (model tools) p w) as Hrun.
  cbv zeta in *. simpl env_RemoveAll in Hrun. simpl env_MkdirAll in Hrun.
  set (r := resetBackupDir (model tools) p w) in *. clearbody r.
  assert (files (with_files (remove_tree p (files w)) w) !! p = None) as Hgone.
  { simpl. apply remove_tree_gone, outside_self. }
  assert (forall e2 w2,
            fs_MkdirAll p perm_0755 (with_files (remove_tree p (files w)) w) = (e2, w2) ->
            out r = Done e2 -> final r = w2 ->
            (out r = Done None <->
             negb (existsb (is_file (remove_tree p (files w))) (ancestors p ++ [p])) &&
             negb (is_denied OpMkdir p w) = true) /\
            final r = with_files
              (if negb (existsb (is_file (remove_tree p (files w))) (ancestors p ++ [p])) &&
                  negb (is_denied OpMkdir p w)
               then reset_files p (files w) else remove_tree p (files w)) w) as Hmk.
  { intros e2 w2. unfold fs_MkdirAll. rewrite Hgone. simpl files.
    change (is_denied OpMkdir p (with_files (remove_tree p (files w)) w))
      with (is_denied OpMkdir p w).
    destruct (existsb _ _); cbv beta iota zeta.
    { intros [= <- <-] -> ->. split; [split; discriminate | reflexivity]. }
    destruct (is_denied OpMkdir p w); cbv beta iota zeta.
    { intros [= <- <-] -> ->. split; [split; discriminate | reflexivity]. }
    intros [= <- <-] -> ->. split; [split; reflexivity | reflexivity]. }
  unfold fs_RemoveAll in Hrun.
  destruct (files w !! p).
  - destruct (is_denied OpRemove p w); simpl negb; cbv iota.
    + destruct Hrun as (_ & -> & ->). split; [split; discriminate | reflexivity].
    + rewrite andb_true_l.
      destruct (fs_MkdirAll p perm_0755 _) as [e2 w2] eqn:E.
      destruct Hrun as (_ & Ho & Hf). exact (Hmk e2 w2 eq_refl Ho Hf).
  - rewrite andb_true_l.
    destruct (fs_MkdirAll p perm_0755 _) as [e2 w2] eqn:E.
    destruct Hrun as (_ & Ho & Hf). exact (Hmk e2 w2 eq_refl Ho Hf).
Qed.

(** X11: [resetBackupDir] touches the backup directory only.  On the
    modelled file system, whatever the step returns, a path that is neither
    the directory, nor below it, nor one of the directories above it is
    afterwards what it was, and so are the database servers and the working
    directory. *)
Theorem X11_reset_leaves_the_rest tools (p q : string) (w : World) :
  outside p q = true -> q ∉ ancestors p ->
  let r := resetBackupDir (model tools) p w in
  files (final r) !! q = files w !! q /\
  servers (final r) = servers w /\ getwd (final r) = getwd w.
Proof.
  intros Ho Ha. cbv zeta.
  destruct (resetBackupDir_model tools p w) as [_ Hf]. rewrite Hf.
  destruct (match files w !! p with Some _ => _ | None => _ end);
    [|repeat split; reflexivity].
  split; [|split; reflexivity]. simpl.
  destruct (_ && _).
  - now apply reset_files_lookup_outside.
  - now apply remove_tree_kept.
Qed.

Lemma X11_witness :
  files (final (resetBackupDir (model quiet_tools) "/work/backup_dir" stale_world))
    !! "/work/notes.txt" = None.
Proof.
  refine (eq_trans (proj1 (X11_reset_leaves_the_rest quiet_tools "/work/backup_dir"
                             "/work/notes.txt" stale_world _ _)) _).
  - vm_compute. reflexivity.
  - intros H. apply list_elem_of_singleton in H. discriminate.
  - vm_compute. reflexivity.
Defined.

Lemma reset_files_again (p : string) (fs : gmap string node) :
  reset_files p (reset_files p fs) = reset_files p fs.
Proof.
  apply map_eq. intros q.
  destruct (decide (q ∈ ancestors p ++ [p])) as [Hin | Hout].
  - now rewrite !reset_files_lookup_made.
  - destruct (outside p q) eqn:Ho.
    + apply reset_files_lookup_outside; [exact Ho|].
      intros Ha. apply Hout, elem_of_app. now left.
    + unfold reset_files at 1 3. rewrite !make_dirs_lookup_out by exact Hout.
      now rewrite !remove_tree_gone.
Qed.

Lemma no_file_after_reset (p : string) (fs : gmap string node) :
  existsb (is_file (remove_tree p (reset_files p fs))) (ancestors p ++ [p]) = false.
Proof.
  apply not_true_is_false. intros Hex. apply existsb_exists in Hex as (q & Hin & Hq).
  apply list_elem_of_In in Hin. unfold is_file in Hq.
  apply elem_of_app in Hin as Hc. destruct Hc as [Ha | Hp].
  - rewrite remove_tree_kept in Hq by now apply outside_ancestor.
    rewrite reset_files_lookup_made in Hq by exact Hin. discriminate.
  - apply list_elem_of_singleton in Hp as ->.
    rewrite remove_tree_gone in Hq by apply outside_self. discriminate.
Qed.

(** X15: [resetBackupDir] can be repeated.  On the modelled file system,
    after a reset that succeeded, and when the directory may be removed, a
    second reset succeeds as well and leaves the world the first one left. *)
Theorem X15_reset_twice tools (p : string) (w : World) :
  let r1 := resetBackupDir (model tools) p w in
  let r2 := resetBackupDir (model tools) p (final r1) in
  out r1 = Done None -> is_denied OpRemove p w = false ->
  out r2 = Done None /\ final r2 = final r1.
Proof.
  cbv zeta. intros Hok Hrm.
  destruct (resetBackupDir_model tools p w) as [Ho Hf]. cbv zeta in Ho, Hf.
  apply Ho in Hok. apply andb_prop in Hok as [Hr Hm]. rewrite Hr, Hm in Hf.
  apply andb_prop in Hm as [_ Hd]. apply negb_true_iff in Hd.
  rewrite Hf.
  destruct (resetBackupDir_model tools p (with_files (reset_files p (files w)) w))
    as [Ho2 Hf2].
  cbv zeta in Ho2, Hf2. simpl files in Ho2, Hf2.
  change (is_denied OpRemove p (with_files (reset_files p (files w)) w))
    with (is_denied OpRemove p w) in Ho2, Hf2.
  change (is_denied OpMkdir p (with_files (reset_files p (files w)) w))
    with (is_denied OpMkdir p w) in Ho2, Hf2.
  rewrite reset_files_lookup_made in Ho2, Hf2
    by (apply elem_of_app; right; apply list_elem_of_here).
  rewrite Hrm, Hd, no_file_after_reset in Ho2, Hf2. simpl in Ho2, Hf2.
  split; [now apply Ho2|]. rewrite Hf2, reset_files_again. reflexivity.
Qed.

Lemma X15_witness :
  let r1 := resetBackupDir (model quiet_tools) "/work/backup_dir" stale_world in
  let r2 := resetBackupDir (model quiet_tools) "/work/backup_dir" (final r1) in
  out r2 = Done None /\ final r2 = final r1.
Proof.
  apply (X15_reset_twice quiet_tools "/work/backup_dir" stale_world);
    vm_compute; reflexivity.
Defined.

(** ** The data dump of [src/main.go] *)

(** What came before the data dump in a run of [main]: the directory was
    made, then the schema was dumped and restored and the triggers were
    switched off, each without error. *)
Lemma MainGo_data_dump_world {W} (env : Env W) (w w' : W) (e : error) :
  let d := backup_dir env w in
  (w', EvRun (dumpDataCmd MainGo.sourceDB MainGo.jobs d) e) ∈ trace (MainGo.main env w) ->
  exists w1 w2 w3 w4,
    env_MkdirAll env d perm_0755 w1 = (None, w2) /\
    env_Run env (dumpSchemaCmd MainGo.sourceDB d) w2 = (None, w3) /\
    env_Run env (restoreSchemaCmd MainGo.destinationDB MainGo.jobs d) w3 = (None, w4) /\
    env_Run env (psqlCmd MainGo.destinationDB set_replica) w4 = (None, w').
Proof.
  cbv zeta. destruct (MainGo.main env w) as [o wf t] eqn:E. revert E.
  unfold_program. repeat (answer; cbv beta iota zeta).
  all: intros [= <- <- <-] Hin; in_list Hin.
  all: injection Hin as ->.
  all: do 4 eexists; repeat split; eassumption.
Qed.

Lemma fs_MkdirAll_made (p : string) (perm : Z) (w w' : World) :
  fs_MkdirAll p perm w = (None, w') -> files w' !! p = Some Dir.
Proof.
  unfold fs_MkdirAll.
  destruct (files w !! p) as [[]|] eqn:Hp.
  all: first
    [ now intros [= <-]
    | destruct (existsb _ _); [discriminate|];
      destruct (is_denied OpMkdir p w); [discriminate|];
      intros [= <-]; simpl; apply make_dirs_lookup_in, elem_of_app; right;
      apply list_elem_of_here ].
Qed.

(** X14: in [src/main.go] the data dump is started on the directory the
    schema dump wrote to.  On the modelled file system, when no tool removes
    the backup directory, the directory exists in the world in which the data
    pg_dump of a run of [main] is started: unlike [src/unnamed/part_000],
    nothing removes it between the two dumps. *)
Theorem X14_main_go_dumps_into_the_schema_archive tools (w w' : World) (e : error) :
  let d := backup_dir (model tools) w in
  (forall c w0, files w0 !! d = Some Dir -> files (snd (tools c w0)) !! d = Some Dir) ->
  (w', EvRun (dumpDataCmd MainGo.sourceDB MainGo.jobs d) e)
    ∈ trace (MainGo.main (model tools) w) ->
  files w' !! d = Some Dir.
Proof.
  cbv zeta. intros Hkeep Hin.
  apply MainGo_data_dump_world in Hin as (w1 & w2 & w3 & w4 & Hmk & Hds & Hrs & Hset).
  apply fs_MkdirAll_made in Hmk.
  assert (files w3 !! backup_dir (model tools) w = Some Dir) as H3.
  { change w3 with (snd (@None goerr, w3)). rewrite <- Hds. now apply Hkeep. }
  assert (files w4 !! backup_dir (model tools) w = Some Dir) as H4.
  { change w4 with (snd (@None goerr, w4)). rewrite <- Hrs. now apply Hkeep. }
  rewrite (model_psql_statement tools (psqlCmd MainGo.destinationDB set_replica)
             MainGo.destinationDB set_replica w4 eq_refl eq_refl psql_c_set_replica)
    in Hset.
  destruct (servers w4 !! MainGo.destinationDB); [|discriminate].
  now injection Hset as <-.
Qed.

Lemma X14_witness :
  files (final (resetBackupDir (model quiet_tools) "/work/backup_dir" ready_world))
    !! "/work/backup_dir" = Some Dir.
Proof.
  apply (X14_main_go_dumps_into_the_schema_archive quiet_tools ready_world _ None).
  - intros c w0 H. exact H.
  - apply (list_elem_of_lookup_2 _ 40). vm_compute. reflexivity.
Defined.

Lemma commanded_in (expected : list Cmd) (evs : list event) (c : Cmd) (e : error) :
  commanded expected evs -> (c, e) ∈ runs evs -> c ∈ expected.
Proof.
  intros [rest ->] Hin. apply elem_of_app. left.
  apply list_elem_of_In. apply in_map_iff. exists (c, e).
  split; [reflexivity | now apply list_elem_of_In].
Qed.

(** X16: [src/main.go] issues no transaction.  In any environment, every
    psql command of a run of [main] is attached to the terminal, connects to
    the destination and carries the cleanup script or one of the two SET
    statements: never BEGIN, COMMIT or ROLLBACK, although the data restore
    is the step named [restoreDataWithTransaction]. *)
Theorem X16_main_go_issues_no_transaction {W} (env : Env W) (w : W) (c : Cmd) (e : error) :
  (c, e) ∈ runs (events (MainGo.main env w)) ->
  Path c = "psql" ->
  exists sql, c = psqlCmd MainGo.destinationDB sql /\ sql ∈ statements_MainGo.
Proof.
  intros Hin Hp.
  destruct (MainGo_main_keeps env w) as (_ & _ & Hc). cbv zeta in Hc.
  apply (commanded_in _ _ c e Hc) in Hin. unfold commands_MainGo in Hin.
  in_list Hin; subst c; try discriminate Hp.
  - exists MainGo.cleanSQL. split; [reflexivity | apply list_elem_of_here].
  - exists set_replica. split; [reflexivity | apply list_elem_of_further, list_elem_of_here].
  - exists set_origin. split; [reflexivity|].
    apply list_elem_of_further, list_elem_of_further, list_elem_of_here.
Qed.

Lemma X16_witness :
  exists sql, psqlCmd MainGo.destinationDB set_origin = psqlCmd MainGo.destinationDB sql /\
              sql ∈ statements_MainGo.
Proof.
  apply (X16_main_go_issues_no_transaction scripted []
           (psqlCmd MainGo.destinationDB set_origin) None).
  - apply (list_elem_of_lookup_2 _ 6). vm_compute. reflexivity.
  - reflexivity.
Defined.
